(** * Expense tracker: the record store of [main.py]

    The program keeps one SQLite table, [expenses], and exposes six
    operations on it.  Each operation opens a connection, runs one SQL
    statement and turns the outcome into a Python value (a [dict], or a
    [list] of [dict]s).

    The definitions come first:
    - [PyStr]: the few Python string operations the handlers use;
    - [Sql]: the relational operators the statements are made of
      (comparison with NULL, ORDER BY, GROUP BY), over any row type;
    - [Expenses]: the table, the statements of [main.py], [init_db], the
      six operations, and histories of calls;
    - [Scenario]: a concrete ledger.
    The properties follow, in the same order.

    Arguments are typed by the column they are bound to: a string or an
    amount, or [None] for Python's [None] (SQL NULL); ids are integers.
    An id argument is bound to an INTEGER parameter, which holds the
    signed 64-bit integers: what is stated of an id argument is stated for
    that range. *)

From Stdlib Require Import ZArith List String Ascii Bool Lia.
From Stdlib Require Import Sorting.Sorted Sorting.Permutation.
From Stdlib Require Import DecimalString.
Import ListNotations.

Local Open Scope string_scope.
Local Open Scope list_scope.
Local Open Scope Z_scope.

(** ** Amounts

    The column [amount] is declared REAL.  The store never inspects an
    amount: it keeps it, adds it up in [SUM(amount)] and compares totals in
    [ORDER BY total_amount].  Amounts are therefore a type with a zero, an
    addition and a total preorder, standing for the numbers the column can
    hold; nothing is assumed of the addition.  [Amount_Z] is the instance
    the concrete examples run on. *)

Class Amount (A : Type) : Type := {
  azero : A;
  aadd : A -> A -> A;
  aleb : A -> A -> bool;
  aleb_total : forall x y, aleb x y = true \/ aleb y x = true;
  aleb_trans : forall x y z, aleb x y = true -> aleb y z = true -> aleb x z = true
}.

#[export] Instance Amount_Z : Amount Z.
Proof.
  refine {| azero := 0; aadd := Z.add; aleb := Z.leb |}.
  - intros x y. rewrite !Z.leb_le. lia.
  - intros x y z. rewrite !Z.leb_le. lia.
Defined.

(** ** Python strings *)

Module PyStr.

(** [str.lower()] on the ASCII letters. *)
Definition lower_ascii (c : ascii) : ascii :=
  let n := nat_of_ascii c in
  if (andb (65 <=? n) (n <=? 90))%nat then ascii_of_nat (n + 32) else c.

Fixpoint lower (s : string) : string :=
  match s with
  | EmptyString => EmptyString
  | String c s' => String (lower_ascii c) (lower s')
  end.

(** [needle in s]. *)
Fixpoint contains (needle s : string) : bool :=
  if String.prefix needle s then true
  else match s with
       | EmptyString => false
       | String _ s' => contains needle s'
       end.

(** [str(n)] for an [int], as an f-string formats it. *)
Definition str_of_int (n : Z) : string := NilZero.string_of_int (Z.to_int n).

(** Truth value of an optional string argument: [None] and [""] are
    false. *)
Definition truthy (o : option string) : bool :=
  match o with
  | Some s => negb (s =? "")%string
  | None => false
  end.

End PyStr.

(** ** Relational operators *)

Module Sql.

(** Comparisons of TEXT values use the BINARY collation: byte-wise
    lexicographic order.  A comparison with NULL is not true. *)
Definition text_le (a b : option string) : bool :=
  match a, b with
  | Some x, Some y => String.leb x y
  | _, _ => false
  end.

Definition text_eq (a b : option string) : bool :=
  match a, b with
  | Some x, Some y => String.eqb x y
  | _, _ => false
  end.

(** [x BETWEEN lo AND hi] is [x >= lo AND x <= hi]. *)
Definition between (x lo hi : option string) : bool :=
  text_le lo x && text_le x hi.

Section Generic.
Context {T : Type}.

(** ORDER BY: [before x y] holds when [x] may precede [y]. *)
Fixpoint insert_sorted (before : T -> T -> bool) (x : T) (l : list T) : list T :=
  match l with
  | [] => [x]
  | y :: l' => if before x y then x :: l else y :: insert_sorted before x l'
  end.

Fixpoint order_by (before : T -> T -> bool) (l : list T) : list T :=
  match l with
  | [] => []
  | x :: l' => insert_sorted before x (order_by before l')
  end.

(** GROUP BY: rows are put in the group of their key, one after the
    other; a key seen for the first time opens a new group. *)
Context {K : Type} (keq : K -> K -> bool).

Fixpoint add_to_group (k : K) (x : T) (gs : list (K * list T)) : list (K * list T) :=
  match gs with
  | [] => [(k, [x])]
  | (k', g) :: gs' =>
      if keq k k' then (k', g ++ [x]) :: gs'
      else (k', g) :: add_to_group k x gs'
  end.

Definition group_by (key : T -> K) (l : list T) : list (K * list T) :=
  fold_left (fun gs x => add_to_group (key x) x gs) l [].

End Generic.

End Sql.

(** ** The expense store *)

Module Expenses.

Section Store.

Context {A : Type} `{Amount A}.

(** *** Data *)

(** A row of the table
    [expenses(id INTEGER PRIMARY KEY AUTOINCREMENT, date TEXT NOT NULL,
    amount REAL NOT NULL, category TEXT NOT NULL, subcategory TEXT DEFAULT '',
    note TEXT DEFAULT '')].  The two columns without NOT NULL may hold NULL,
    which is [None]. *)
Record expense : Type := mk_expense {
  r_id : Z;
  r_date : string;
  r_amount : A;
  r_category : string;
  r_subcategory : option string;
  r_note : option string
}.

(** The state of the database file: the rows of [expenses] in rowid
    order, and the counter that AUTOINCREMENT keeps for the table in
    [sqlite_sequence] (0 as long as the table has never had a row).
    [empty] is the table as [CREATE TABLE IF NOT EXISTS] makes it on a new
    file. *)
Record store : Type := mk_store {
  rows : list expense;
  seq : Z
}.

Definition empty : store := {| rows := []; seq := 0 |}.

(** Exceptions of the [sqlite3] layer; [str] is [str(e)]. *)
Inductive exn : Type :=
| IntegrityError (msg : string)
| OperationalError (msg : string).

Definition str (e : exn) : string :=
  match e with
  | IntegrityError msg => msg
  | OperationalError msg => msg
  end.

(** The outcome of executing a statement: [inl e] raises [e]. *)
Definition result (T : Type) : Type := (exn + T)%type.

Definition bind {X Y : Type} (m : result X) (k : X -> result Y) : result Y :=
  match m with
  | inl e => inl e
  | inr x => k x
  end.

Notation "x <- m ;; k" := (bind m (fun x => k))
  (at level 61, m at next level, right associativity).

(** The Python values the operations return. *)
#[warnings="-register-all"]
Inductive pyval : Type :=
| PNone
| PInt (n : Z)
| PFloat (a : A)
| PStr (s : string)
| PDict (d : list (string * pyval))
| PList (l : list pyval).

Definition of_text (o : option string) : pyval :=
  match o with
  | Some s => PStr s
  | None => PNone
  end.

(** [d.get(k)] on a returned value; [None] when it is not a dict or has
    no such key. *)
Fixpoint assoc (k : string) (d : list (string * pyval)) : option pyval :=
  match d with
  | [] => None
  | (k', v) :: d' => if (k =? k')%string then Some v else assoc k d'
  end.

Definition dict_get (k : string) (v : pyval) : option pyval :=
  match v with
  | PDict d => assoc k d
  | _ => None
  end.

(** [dict(zip(cols, r))] *)
Definition dict_zip (cols : list string) (r : list pyval) : pyval :=
  PDict (combine cols r).

(** *** Statements *)

(** AUTOINCREMENT: the new rowid is one more than the largest rowid the
    table has ever held. *)
Definition max_rowid (l : list expense) : Z :=
  fold_right (fun r m => Z.max (r_id r) m) 0 l.

Definition next_rowid (c : store) : Z :=
  Z.max (seq c) (max_rowid (rows c)) + 1.

Definition not_null {T : Type} (col : string) (v : option T) : result T :=
  match v with
  | Some x => inr x
  | None => inl (IntegrityError ("NOT NULL constraint failed: expenses." ++ col)%string)
  end.

(** [INSERT INTO expenses(date, amount, category, subcategory, note)
    VALUES (?,?,?,?,?)]; gives [lastrowid] and the new state. *)
Definition insert_expense (c : store) (date : option string) (amount : option A)
    (category subcategory note : option string) : result (Z * store) :=
  d <- not_null "date" date ;;
  a <- not_null "amount" amount ;;
  g <- not_null "category" category ;;
  let i := next_rowid c in
  inr (i, {| rows := rows c ++ [mk_expense i d a g subcategory note]; seq := i |}).

Definition cols_expense : list string :=
  ["id"; "date"; "amount"; "category"; "subcategory"; "note"].

Definition tuple_expense (r : expense) : list pyval :=
  [PInt (r_id r); PStr (r_date r); PFloat (r_amount r); PStr (r_category r);
   of_text (r_subcategory r); of_text (r_note r)].

(** [ORDER BY date DESC, id DESC] *)
Definition date_desc_id_desc (x y : expense) : bool :=
  (r_date y <? r_date x)%string
  || ((r_date x =? r_date y)%string && (r_id y <=? r_id x)%Z).

(** [SELECT id, date, amount, category, subcategory, note FROM expenses
    WHERE date BETWEEN ? AND ? ORDER BY date DESC, id DESC] *)
Definition select_range (c : store) (start_date end_date : option string)
    : result (list expense) :=
  inr (Sql.order_by date_desc_id_desc
         (filter (fun r => Sql.between (Some (r_date r)) start_date end_date) (rows c))).

(** [SELECT ... FROM expenses WHERE id = ?] *)
Definition select_by_id (c : store) (expense_id : Z) : result (list expense) :=
  inr (filter (fun r => r_id r =? expense_id) (rows c)).

(** A row of the summary: [category, SUM(amount), COUNT( * )]. *)
Record summary : Type := mk_summary {
  s_category : string;
  total_amount : A;
  count : Z
}.

Definition cols_summary : list string := ["category"; "total_amount"; "count"].

Definition tuple_summary (g : summary) : list pyval :=
  [PStr (s_category g); PFloat (total_amount g); PInt (count g)].

Definition sql_sum (l : list A) : A := fold_left aadd l azero.

Definition aggregate (g : string * list expense) : summary :=
  {| s_category := fst g;
     total_amount := sql_sum (map r_amount (snd g));
     count := Z.of_nat (List.length (snd g)) |}.

(** [ORDER BY total_amount DESC] *)
Definition total_desc (x y : summary) : bool :=
  aleb (total_amount y) (total_amount x).

(** [SELECT category, SUM(amount) AS total_amount, COUNT( * ) as count
    FROM expenses WHERE <cond> GROUP BY category ORDER BY total_amount DESC] *)
Definition select_summary (c : store) (cond : expense -> bool) : result (list summary) :=
  inr (Sql.order_by total_desc
         (map aggregate (Sql.group_by String.eqb r_category (filter cond (rows c))))).

(** One [col = ?] of an UPDATE, with its parameter. *)
Inductive assignment : Type :=
| SetDate (v : string)
| SetAmount (v : A)
| SetCategory (v : string)
| SetSubcategory (v : string)
| SetNote (v : string).

Definition assign (r : expense) (f : assignment) : expense :=
  match f with
  | SetDate v => mk_expense (r_id r) v (r_amount r) (r_category r) (r_subcategory r) (r_note r)
  | SetAmount v => mk_expense (r_id r) (r_date r) v (r_category r) (r_subcategory r) (r_note r)
  | SetCategory v => mk_expense (r_id r) (r_date r) (r_amount r) v (r_subcategory r) (r_note r)
  | SetSubcategory v => mk_expense (r_id r) (r_date r) (r_amount r) (r_category r) (Some v) (r_note r)
  | SetNote v => mk_expense (r_id r) (r_date r) (r_amount r) (r_category r) (r_subcategory r) (Some v)
  end.

(** [UPDATE expenses SET <fields> WHERE id = ?]; gives [rowcount] and the
    new state. *)
Definition update_by_id (c : store) (fields : list assignment) (expense_id : Z)
    : result (nat * store) :=
  let hit := fun r => r_id r =? expense_id in
  inr (List.length (filter hit (rows c)),
       {| rows := map (fun r => if hit r then fold_left assign fields r else r) (rows c);
          seq := seq c |}).

(** [DELETE FROM expenses WHERE id = ?] *)
Definition delete_by_id (c : store) (expense_id : Z) : result (nat * store) :=
  let hit := fun r => r_id r =? expense_id in
  inr (List.length (filter hit (rows c)),
       {| rows := filter (fun r => negb (hit r)) (rows c); seq := seq c |}).

(** [DELETE FROM expenses WHERE category = 'test'] *)
Definition delete_by_category (c : store) (category : string) : store :=
  {| rows := filter (fun r => negb (r_category r =? category)%string) (rows c);
     seq := seq c |}.

(** *** init_db *)

(** [CREATE TABLE IF NOT EXISTS] keeps an existing table as it is.  The
    INSERT leaves [subcategory] and [note] out, so they take their DEFAULT;
    OR IGNORE skips the row when a constraint rejects it. *)
Definition init_db (c : store) : store :=
  let c1 :=
    match insert_expense c (Some "2000-01-01") (Some azero) (Some "test") (Some "") (Some "") with
    | inr (_, c') => c'
    | inl _ => c
    end in
  delete_by_category c1 "test".

(** *** The six operations *)

Definition success (key : string) (v : pyval) : pyval :=
  PDict [("status", PStr "success"); (key, v)].

Definition error (message : string) : pyval :=
  PDict [("status", PStr "error"); ("message", PStr message)].

Definition not_found (expense_id : Z) : pyval :=
  error ("Expense ID " ++ PyStr.str_of_int expense_id ++ " not found")%string.

(** An argument with a default in the signature: [None] is an omitted
    argument, [Some v] a value passed by the caller ([Some None] is Python's
    [None] passed explicitly). *)
Definition param (default : option string) (given : option (option string)) : option string :=
  match given with
  | Some v => v
  | None => default
  end.

(** The [except Exception as e] clause of [add_expense]. *)
Definition except_add (e : exn) : pyval :=
  if PyStr.contains "readonly" (PyStr.lower (str e)) then error "Database is read-only"
  else error (str e).

(** The [except Exception as e] clause of the other five. *)
Definition except_any (e : exn) : pyval := error (str e).

(** A failed statement changes nothing: the connection is closed without
    a commit. *)
Definition add_expense (c : store) (date : option string) (amount : option A)
    (category : option string) (subcategory note : option (option string))
    : pyval * store :=
  let subcategory := param (Some "") subcategory in
  let note := param (Some "") note in
  match insert_expense c date amount category subcategory note with
  | inr (expense_id, c') => (success "id" (PInt expense_id), c')
  | inl e => (except_add e, c)
  end.

Definition list_expenses (c : store) (start_date end_date : option string) : pyval :=
  match select_range c start_date end_date with
  | inr rs => PList (map (fun r => dict_zip cols_expense (tuple_expense r)) rs)
  | inl e => except_any e
  end.

Definition summarize (c : store) (start_date end_date category : option string) : pyval :=
  let in_range := fun r => Sql.between (Some (r_date r)) start_date end_date in
  let cond :=
    if PyStr.truthy category
    then fun r => in_range r && Sql.text_eq (Some (r_category r)) category
    else in_range in
  match select_summary c cond with
  | inr gs => PList (map (fun g => dict_zip cols_summary (tuple_summary g)) gs)
  | inl e => except_any e
  end.

Definition get_expense (c : store) (expense_id : Z) : pyval :=
  match select_by_id c expense_id with
  | inr rs =>
      match hd_error rs with
      | None => not_found expense_id
      | Some row => success "expense" (dict_zip cols_expense (tuple_expense row))
      end
  | inl e => except_any e
  end.

Definition field {T : Type} (set : T -> assignment) (v : option T) : list assignment :=
  match v with
  | Some x => [set x]
  | None => []
  end.

Definition edit_expense (c : store) (expense_id : Z) (date : option string)
    (amount : option A) (category subcategory note : option string) : pyval * store :=
  let fields :=
    field SetDate date ++ field SetAmount amount ++ field SetCategory category
    ++ field SetSubcategory subcategory ++ field SetNote note in
  match fields with
  | [] => (error "No fields to update", c)
  | _ :: _ =>
      match update_by_id c fields expense_id with
      | inr (rowcount, c') =>
          if (rowcount =? 0)%nat then (not_found expense_id, c')
          else (success "updated_id" (PInt expense_id), c')
      | inl e => (except_any e, c)
      end
  end.

Definition delete_expense (c : store) (expense_id : Z) : pyval * store :=
  match delete_by_id c expense_id with
  | inr (rowcount, c') =>
      if (rowcount =? 0)%nat then (not_found expense_id, c')
      else (success "deleted_id" (PInt expense_id), c')
  | inl e => (except_any e, c)
  end.

(** *** Histories

    A call of the program: the start of the process, which runs [init_db],
    or one of the six operations with its arguments. *)
Inductive call : Type :=
| Start
| Add (date : option string) (amount : option A) (category : option string)
      (subcategory note : option (option string))
| ListExpenses (start_date end_date : option string)
| Summarize (start_date end_date category : option string)
| Get (expense_id : Z)
| Edit (expense_id : Z) (date : option string) (amount : option A)
       (category subcategory note : option string)
| Delete (expense_id : Z).

Definition step (c : store) (k : call) : pyval * store :=
  match k with
  | Start => (PNone, init_db c)
  | Add date amount category subcategory note =>
      add_expense c date amount category subcategory note
  | ListExpenses start_date end_date => (list_expenses c start_date end_date, c)
  | Summarize start_date end_date category =>
      (summarize c start_date end_date category, c)
  | Get expense_id => (get_expense c expense_id, c)
  | Edit expense_id date amount category subcategory note =>
      edit_expense c expense_id date amount category subcategory note
  | Delete expense_id => delete_expense c expense_id
  end.

(** The calls of a history with what each returned, and the final state. *)
Fixpoint run (c : store) (ks : list call) : list (call * pyval) * store :=
  match ks with
  | [] => ([], c)
  | k :: ks' =>
      let (v, c1) := step c k in
      let (log, c2) := run c1 ks' in
      ((k, v) :: log, c2)
  end.

(** The ids that the [add_expense] calls of a history returned. *)
Definition added_id (kv : call * pyval) : option Z :=
  match kv with
  | (Add _ _ _ _ _, v) =>
      match dict_get "id" v with
      | Some (PInt i) => Some i
      | _ => None
      end
  | _ => None
  end.

Fixpoint added_ids (log : list (call * pyval)) : list Z :=
  match log with
  | [] => []
  | kv :: log' =>
      match added_id kv with
      | Some i => i :: added_ids log'
      | None => added_ids log'
      end
  end.

End Store.

End Expenses.

(** ** A concrete ledger

    The scenario of the specification, with amounts counted in hundredths
    ([Amount_Z]): the process starts on an empty file, then three records
    are added. *)

Module Scenario.

Import Expenses.

Definition history : list (call (A := Z)) :=
  [Start;
   Add (Some "2024-01-05") (Some 1000) (Some "Food") None None;
   Add (Some "2024-01-10") (Some 550) (Some "Food") None None;
   Add (Some "2024-02-01") (Some 10000) (Some "Travel") None None].

Definition ledger : store (A := Z) := snd (run empty history).

End Scenario.

(** * Properties *)

(** ** The relational operators *)

Module SqlFacts.

Import Sql.

Section Ordering.

Context {T : Type} (before : T -> T -> bool).

Lemma insert_sorted_perm (x : T) (l : list T) :
  Permutation (insert_sorted before x l) (x :: l).
Proof.
  induction l as [|y l IH]; simpl.
  - apply Permutation_refl.
  - destruct (before x y).
    + apply Permutation_refl.
    + apply perm_trans with (y :: x :: l).
      * now apply perm_skip.
      * apply perm_swap.
Qed.

Lemma order_by_perm (l : list T) : Permutation (order_by before l) l.
Proof.
  induction l as [|x l IH]; simpl.
  - apply perm_nil.
  - apply perm_trans with (x :: order_by before l).
    + apply insert_sorted_perm.
    + now apply perm_skip.
Qed.

Lemma order_by_nil (l : list T) : l = [] -> order_by before l = [].
Proof. intros ->. reflexivity. Qed.

Hypothesis before_total : forall x y, before x y = true \/ before y x = true.

Let R := fun x y => before x y = true.

Lemma insert_sorted_hd (x a : T) (l : list T) :
  R a x -> HdRel R a l -> HdRel R a (insert_sorted before x l).
Proof.
  intros Hax Hal. destruct l as [|y l]; simpl.
  - now constructor.
  - destruct (before x y); constructor; trivial.
    now inversion Hal.
Qed.

Lemma insert_sorted_sorted (x : T) (l : list T) :
  Sorted R l -> Sorted R (insert_sorted before x l).
Proof.
  induction 1 as [|y l Hs IH Hhd]; simpl.
  - repeat constructor.
  - destruct (before x y) eqn:Hxy.
    + constructor; [now constructor | now constructor].
    + constructor; trivial.
      apply insert_sorted_hd; trivial.
      destruct (before_total x y) as [Hc|Hc]; [congruence | exact Hc].
Qed.

Lemma order_by_locally_sorted (l : list T) : Sorted R (order_by before l).
Proof.
  induction l as [|x l IH]; simpl.
  - constructor.
  - now apply insert_sorted_sorted.
Qed.

Hypothesis before_trans :
  forall x y z, before x y = true -> before y z = true -> before x z = true.

Lemma order_by_sorted (l : list T) :
  StronglySorted (fun x y => before x y = true) (order_by before l).
Proof.
  apply Sorted_StronglySorted.
  - intros x y z. apply before_trans.
  - apply order_by_locally_sorted.
Qed.

End Ordering.

Section Grouping.

Context {T K : Type} (keq : K -> K -> bool) (key : T -> K).

Hypothesis keq_eq : forall a b, keq a b = true <-> a = b.

Lemma keq_refl (a : K) : keq a a = true.
Proof. now apply keq_eq. Qed.

Lemma keq_neq (a b : K) : a <> b -> keq a b = false.
Proof.
  intros Hab. destruct (keq a b) eqn:E; trivial.
  apply keq_eq in E. contradiction.
Qed.

Lemma group_by_snoc (l : list T) (x : T) :
  group_by keq key (l ++ [x]) = add_to_group keq (key x) x (group_by keq key l).
Proof. unfold group_by. now rewrite fold_left_app. Qed.

Lemma add_to_group_keys (k : K) (x : T) (gs : list (K * list T)) :
  (In k (map fst gs) /\ map fst (add_to_group keq k x gs) = map fst gs)
  \/ (~ In k (map fst gs) /\ map fst (add_to_group keq k x gs) = map fst gs ++ [k]).
Proof.
  induction gs as [|[k' g] gs IH]; simpl.
  - right. split; [tauto | reflexivity].
  - destruct (keq k k') eqn:E.
    + apply keq_eq in E. subst k'. left. split; [now left | reflexivity].
    + assert (Hne : k' <> k).
      { intros ->. rewrite keq_refl in E. discriminate. }
      destruct IH as [[Hin Heq]|[Hnin Heq]]; simpl; rewrite Heq.
      * left. split; [now right | reflexivity].
      * right. split; [tauto | reflexivity].
Qed.

Lemma add_to_group_In (k : K) (x : T) (gs : list (K * list T)) (k' : K) (g' : list T) :
  NoDup (map fst gs) ->
  In (k', g') (add_to_group keq k x gs) ->
  (k' <> k /\ In (k', g') gs)
  \/ (k' = k /\ exists g, In (k, g) gs /\ g' = g ++ [x])
  \/ (k' = k /\ ~ In k (map fst gs) /\ g' = [x]).
Proof.
  induction gs as [|[k0 g0] gs IH]; simpl; intros Hnd Hin.
  - destruct Hin as [Heq|[]]. inversion Heq; subst. right. right. tauto.
  - inversion Hnd as [|? ? Hk0 Hnd']; subst.
    destruct (keq k k0) eqn:E.
    + apply keq_eq in E. subst k0.
      destruct Hin as [Heq|Hin].
      * inversion Heq; subst. right. left. split; trivial.
        exists g0. split; [now left | reflexivity].
      * left. split; [|now right].
        intros ->. apply Hk0. now apply (in_map fst) in Hin.
    + assert (Hne : k0 <> k).
      { intros ->. rewrite keq_refl in E. discriminate. }
      destruct Hin as [Heq|Hin].
      * inversion Heq; subst. left. split; [exact Hne | now left].
      * destruct (IH Hnd' Hin) as [[Hk Hi]|[[Hk [g [Hi Hg]]]|[Hk [Hn Hg]]]].
        -- left. split; [exact Hk | now right].
        -- right. left. split; trivial. exists g. split; [now right | exact Hg].
        -- right. right. split; trivial. split; trivial.
           intros [Hc|Hc]; [now apply Hne | now apply Hn].
Qed.

Lemma filter_none (f : T -> bool) (l : list T) :
  (forall x, In x l -> f x = false) -> filter f l = [].
Proof.
  induction l as [|y l IH]; simpl; intros Hf; trivial.
  rewrite (Hf y) by now left.
  apply IH. intros x Hx. apply Hf. now right.
Qed.

(** What GROUP BY computes: the keys are distinct, they are the keys of
    the rows, and the group of a key holds the rows with that key, in the
    order of the input. *)
Lemma group_by_spec (l : list T) :
  NoDup (map fst (group_by keq key l))
  /\ (forall x, In x l -> In (key x) (map fst (group_by keq key l)))
  /\ (forall k g, In (k, g) (group_by keq key l) ->
        g = filter (fun x => keq (key x) k) l /\ exists x, In x l /\ key x = k).
Proof.
  induction l as [|x l IH] using rev_ind.
  - repeat split; simpl; try constructor; intros; contradiction.
  - destruct IH as (Hnd & Hkeys & Hgrp).
    rewrite group_by_snoc.
    destruct (add_to_group_keys (key x) x (group_by keq key l)) as [[Hin Heq]|[Hnin Heq]].
    + split; [now rewrite Heq|]. split.
      * intros y Hy. rewrite Heq. apply in_app_or in Hy.
        destruct Hy as [Hy|[<-|[]]]; [now apply Hkeys | exact Hin].
      * intros k g Hg. rewrite filter_app. simpl.
        apply add_to_group_In in Hg; trivial.
        destruct Hg as [[Hk Hi]|[[Hk [g0 [Hi Hg]]]|[Hk [Hn Hg]]]].
        -- destruct (Hgrp _ _ Hi) as [-> [y [Hy Hky]]].
           rewrite keq_neq by congruence. rewrite app_nil_r. split; trivial.
           exists y. split; [apply in_or_app; now left | exact Hky].
        -- subst k g. destruct (Hgrp _ _ Hi) as [-> _].
           rewrite keq_refl. split; trivial.
           exists x. split; [apply in_or_app; right; now left | reflexivity].
        -- contradiction.
    + split.
      { rewrite Heq. apply NoDup_rev in Hnd. rewrite <- (rev_involutive (_ ++ _)).
        apply NoDup_rev. rewrite rev_app_distr. simpl. constructor; trivial.
        now rewrite <- in_rev. }
      split.
      * intros y Hy. rewrite Heq. apply in_or_app. apply in_app_or in Hy.
        destruct Hy as [Hy|[<-|[]]]; [left; now apply Hkeys | right; now left].
      * intros k g Hg. rewrite filter_app. simpl.
        apply add_to_group_In in Hg; trivial.
        destruct Hg as [[Hk Hi]|[[Hk [g0 [Hi Hg]]]|[Hk [Hn Hg]]]].
        -- destruct (Hgrp _ _ Hi) as [-> [y [Hy Hky]]].
           rewrite keq_neq by congruence. rewrite app_nil_r. split; trivial.
           exists y. split; [apply in_or_app; now left | exact Hky].
        -- exfalso. apply Hnin. now apply (in_map fst) in Hi.
        -- subst k g. rewrite keq_refl.
           rewrite filter_none.
           ++ split; trivial.
              exists x. split; [apply in_or_app; right; now left | reflexivity].
           ++ intros y Hy. apply keq_neq. intros Hc. apply Hnin.
              rewrite <- Hc. now apply Hkeys.
Qed.

End Grouping.

Lemma StronglySorted_weaken {T : Type} (R R' : T -> T -> Prop) (l : list T) :
  (forall x y, R x y -> R' x y) -> StronglySorted R l -> StronglySorted R' l.
Proof.
  intros HR. induction 1 as [|x l Hs IH Hall]; constructor; trivial.
  eapply Forall_impl; [|exact Hall]. intros y. apply HR.
Qed.

End SqlFacts.

(** ** The order of TEXT values *)

Module TextOrder.

Lemma ascii_lt_trans (a b c : ascii) :
  Ascii.compare a b = Lt -> Ascii.compare b c = Lt -> Ascii.compare a c = Lt.
Proof. unfold Ascii.compare. rewrite !N.compare_lt_iff. lia. Qed.

Lemma compare_lt_trans (a b c : string) :
  String.compare a b = Lt -> String.compare b c = Lt -> String.compare a c = Lt.
Proof.
  revert b c. induction a as [|x a IH]; intros [|y b] [|z c]; simpl; try congruence.
  destruct (Ascii.compare x y) eqn:Exy; try discriminate.
  - apply Ascii.compare_eq_iff in Exy. subst y.
    destruct (Ascii.compare x z); try congruence. apply IH.
  - intros _. destruct (Ascii.compare y z) eqn:Eyz; try discriminate.
    + apply Ascii.compare_eq_iff in Eyz. subst z. now rewrite Exy.
    + now rewrite (ascii_lt_trans _ _ _ Exy Eyz).
Qed.

Lemma ltb_lt (a b : string) : (a <? b)%string = true <-> String.compare a b = Lt.
Proof. unfold String.ltb. destruct (String.compare a b); split; congruence. Qed.

Lemma ltb_trans (a b c : string) :
  (a <? b)%string = true -> (b <? c)%string = true -> (a <? c)%string = true.
Proof. rewrite !ltb_lt. apply compare_lt_trans. Qed.

Lemma ltb_trichotomy (a b : string) :
  (a <? b)%string = true \/ a = b \/ (b <? a)%string = true.
Proof.
  rewrite !ltb_lt. rewrite (String.compare_antisym b a).
  destruct (String.compare a b) eqn:E; simpl; auto.
  apply String.compare_eq_iff in E. auto.
Qed.

End TextOrder.

(** ** The expense store *)

Module ExpensesFacts.

Import Expenses.

Section Facts.

Context {A : Type} `{Amount A}.

#[local] Abbreviation expense := (expense (A := A)).
#[local] Abbreviation store := (store (A := A)).

(** *** Rows and rowids *)

Lemma max_rowid_ge (l : list expense) (r : expense) :
  In r l -> r_id r <= max_rowid l.
Proof.
  induction l as [|x l IH]; simpl; intros Hin; [contradiction|].
  destruct Hin as [->|Hin]; [lia|]. specialize (IH Hin). lia.
Qed.

Lemma next_rowid_fresh (c : store) (r : expense) :
  In r (rows c) -> r_id r < next_rowid c.
Proof.
  intros Hin. apply max_rowid_ge in Hin. unfold next_rowid. lia.
Qed.

Lemma no_row_with_id (l : list expense) (i : Z) :
  (forall r, In r l -> r_id r <> i) -> filter (fun r => r_id r =? i) l = [].
Proof.
  intros Hl. apply SqlFacts.filter_none. intros r Hr.
  apply Z.eqb_neq. now apply Hl.
Qed.

Lemma store_eta (c : store) : {| rows := rows c; seq := seq c |} = c.
Proof. now destruct c. Qed.

Lemma map_no_hit (f : expense -> expense) (l : list expense) (i : Z) :
  (forall r, In r l -> r_id r <> i) ->
  map (fun r => if r_id r =? i then f r else r) l = l.
Proof.
  induction l as [|x l IH]; simpl; intros Hl; trivial.
  rewrite IH by (intros r Hr; apply Hl; now right).
  destruct (Z.eqb_spec (r_id x) i) as [E|E]; trivial.
  exfalso. apply (Hl x); [now left | exact E].
Qed.

Lemma filter_all (f : expense -> bool) (l : list expense) :
  (forall r, In r l -> f r = true) -> filter f l = l.
Proof.
  induction l as [|x l IH]; simpl; intros Hl; trivial.
  rewrite (Hl x) by now left.
  f_equal. apply IH. intros r Hr. apply Hl. now right.
Qed.

(** *** [ORDER BY date DESC, id DESC] is a total preorder *)

Lemma date_desc_id_desc_spec (x y : expense) :
  date_desc_id_desc x y = true <->
  (r_date y <? r_date x)%string = true \/ (r_date x = r_date y /\ r_id y <= r_id x).
Proof.
  unfold date_desc_id_desc.
  rewrite orb_true_iff, andb_true_iff, String.eqb_eq, Z.leb_le. tauto.
Qed.

Lemma date_desc_id_desc_total (x y : expense) :
  date_desc_id_desc x y = true \/ date_desc_id_desc y x = true.
Proof.
  rewrite !date_desc_id_desc_spec.
  destruct (TextOrder.ltb_trichotomy (r_date x) (r_date y)) as [Hlt|[Heq|Hgt]]; auto.
  destruct (Z.le_gt_cases (r_id y) (r_id x)); auto.
  right. right. split; [congruence | lia].
Qed.

Lemma date_desc_id_desc_trans (x y z : expense) :
  date_desc_id_desc x y = true -> date_desc_id_desc y z = true ->
  date_desc_id_desc x z = true.
Proof.
  rewrite !date_desc_id_desc_spec.
  intros [Hxy|[Exy Ixy]] [Hyz|[Eyz Iyz]].
  - left. eapply TextOrder.ltb_trans; eassumption.
  - left. now rewrite <- Eyz.
  - left. now rewrite Exy.
  - right. split; [congruence | lia].
Qed.

Lemma total_desc_total (x y : summary (A := A)) :
  total_desc x y = true \/ total_desc y x = true.
Proof. unfold total_desc. destruct (aleb_total (total_amount x) (total_amount y)); auto. Qed.

Lemma total_desc_trans (x y z : summary (A := A)) :
  total_desc x y = true -> total_desc y z = true -> total_desc x z = true.
Proof. unfold total_desc. intros Hxy Hyz. eapply aleb_trans; eassumption. Qed.

(** *** add then get *)

Lemma select_new_row (c : store) (r : expense) :
  r_id r = next_rowid c ->
  filter (fun x => r_id x =? r_id r) (rows c ++ [r]) = [r].
Proof.
  intros Hid. rewrite filter_app. simpl. rewrite Z.eqb_refl.
  rewrite no_row_with_id; trivial.
  intros x Hx. apply next_rowid_fresh in Hx. lia.
Qed.

(** C1. For every date, amount and category (in particular every
    non-empty category) and every choice of subcategory and note, [add]
    succeeds with a new id, and [get] with that id then returns a record
    whose date, amount, category, subcategory and note are the submitted
    values; an omitted subcategory or note reads back as the empty string. *)
Theorem add_then_get (c : store) (date : string) (amount : A) (category : string)
    (subcategory note : option (option string)) :
  exists (i : Z) (c' : store),
    add_expense c (Some date) (Some amount) (Some category) subcategory note
    = (success "id" (PInt i), c')
    /\ get_expense c' i
       = success "expense"
           (PDict [("id", PInt i); ("date", PStr date); ("amount", PFloat amount);
                   ("category", PStr category);
                   ("subcategory",
                     match subcategory with None => PStr "" | Some v => of_text v end);
                   ("note",
                     match note with None => PStr "" | Some v => of_text v end)]).
Proof.
  eexists. eexists. split; [reflexivity|].
  unfold get_expense, select_by_id. cbn [rows].
  set (r := mk_expense (next_rowid c) date amount category _ _).
  change (next_rowid c) with (r_id r) at 1.
  rewrite (select_new_row c r) by reflexivity.
  destruct subcategory, note; reflexivity.
Qed.

(** *** list *)

(** C2. For all date strings [d1], [d2] and every store, [list] returns
    the records whose date lies in the inclusive lexicographic range
    [[d1, d2]] and no others, each as often as it is stored; they come by
    date descending and, for equal dates, by id descending; when no
    record's date lies in the range the result is the empty list, not an
    error. *)
Theorem list_expenses_range_sorted (c : store) (d1 d2 : string) :
  exists rs : list expense,
    list_expenses c (Some d1) (Some d2)
    = PList (map (fun r => dict_zip cols_expense (tuple_expense r)) rs)
    /\ Permutation rs
         (filter (fun r => (d1 <=? r_date r)%string && (r_date r <=? d2)%string) (rows c))
    /\ StronglySorted
         (fun x y => (r_date y <? r_date x)%string = true
                     \/ (r_date x = r_date y /\ r_id y <= r_id x)) rs
    /\ ((forall r, In r (rows c) ->
           (d1 <=? r_date r)%string && (r_date r <=? d2)%string = false) ->
        list_expenses c (Some d1) (Some d2) = PList []).
Proof.
  eexists. split; [reflexivity|]. split; [|split].
  - apply SqlFacts.order_by_perm.
  - eapply SqlFacts.StronglySorted_weaken.
    + intros x y. apply date_desc_id_desc_spec.
    + apply SqlFacts.order_by_sorted.
      * apply date_desc_id_desc_total.
      * apply date_desc_id_desc_trans.
  - intros Hnone. unfold list_expenses, select_range, Sql.between, Sql.text_le.
    rewrite SqlFacts.filter_none by exact Hnone. reflexivity.
Qed.

(** *** summarize *)

Lemma group_by_category_spec (m : list expense) :
  let G := Sql.group_by String.eqb r_category m in
  NoDup (map fst G)
  /\ (forall x, In x m -> In (r_category x) (map fst G))
  /\ (forall k g, In (k, g) G ->
        g = filter (fun x => (r_category x =? k)%string) m
        /\ exists x, In x m /\ r_category x = k).
Proof. apply SqlFacts.group_by_spec. apply String.eqb_eq. Qed.

Lemma map_category_aggregate (G : list (string * list expense)) :
  map s_category (map aggregate G) = map fst G.
Proof. rewrite map_map. reflexivity. Qed.

(** The result set of the summary statement, for any WHERE condition. *)
Lemma select_summary_spec (c : store) (cond : expense -> bool) :
  exists gs : list summary,
    select_summary c cond = inr gs
    /\ NoDup (map s_category gs)
    /\ (forall k, In k (map s_category gs) <->
                  exists r, In r (rows c) /\ cond r = true /\ r_category r = k)
    /\ (forall g, In g gs ->
          total_amount g
          = fold_left aadd
              (map r_amount
                 (filter (fun r => (r_category r =? s_category g)%string)
                    (filter cond (rows c)))) azero
          /\ count g
             = Z.of_nat
                 (List.length
                    (filter (fun r => (r_category r =? s_category g)%string)
                       (filter cond (rows c)))))
    /\ StronglySorted (fun x y => aleb (total_amount y) (total_amount x) = true) gs.
Proof.
  eexists. split; [reflexivity|].
  set (m := filter cond (rows c)).
  destruct (group_by_category_spec m) as (Hnd & Hkeys & Hgrp).
  set (G := Sql.group_by String.eqb r_category m) in *.
  pose proof (SqlFacts.order_by_perm total_desc (map aggregate G)) as Hperm.
  split; [|split; [|split]].
  - apply (Permutation_NoDup (l := map s_category (map aggregate G))).
    + apply Permutation_map. now apply Permutation_sym.
    + now rewrite map_category_aggregate.
  - intros k. split.
    + intros Hk.
      apply (Permutation_in _ (Permutation_map s_category Hperm)) in Hk.
      rewrite map_category_aggregate in Hk.
      apply in_map_iff in Hk. destruct Hk as [[k' g] [Hfst Hin]]. simpl in Hfst. subst k'.
      destruct (Hgrp _ _ Hin) as [_ [r [Hr Hcat]]].
      exists r. unfold m in Hr. apply filter_In in Hr. tauto.
    + intros [r [Hr [Hc Hcat]]].
      apply (Permutation_in _ (Permutation_map s_category (Permutation_sym Hperm))).
      rewrite map_category_aggregate. rewrite <- Hcat. apply Hkeys.
      unfold m. apply filter_In. tauto.
  - intros g Hg.
    apply (Permutation_in _ Hperm) in Hg.
    apply in_map_iff in Hg. destruct Hg as [[k grp] [<- Hin]].
    destruct (Hgrp _ _ Hin) as [-> _]. split; reflexivity.
  - apply SqlFacts.order_by_sorted.
    + apply total_desc_total.
    + apply total_desc_trans.
Qed.

Lemma select_summary_none (c : store) (cond : expense -> bool) :
  (forall r, In r (rows c) -> cond r = false) -> select_summary c cond = inr [].
Proof.
  intros Hnone. unfold select_summary. now rewrite SqlFacts.filter_none.
Qed.

(** C3. For every date range [[d1, d2]], [summarize] without a category
    filter returns one group per distinct category among the records dated
    in the range: the categories of the groups are pairwise distinct and are
    those of the matching records; a group's [total_amount] is the sum of
    the amounts of the matching records of its category and its [count] is
    their number; the groups come by [total_amount] descending; with no
    matching record the result is the empty list. *)
Theorem summarize_groups (c : store) (d1 d2 : string) :
  let in_range := fun r => (d1 <=? r_date r)%string && (r_date r <=? d2)%string in
  exists gs : list summary,
    summarize c (Some d1) (Some d2) None
    = PList (map (fun g => dict_zip cols_summary (tuple_summary g)) gs)
    /\ NoDup (map s_category gs)
    /\ (forall k, In k (map s_category gs) <->
                  exists r, In r (rows c) /\ in_range r = true /\ r_category r = k)
    /\ (forall g, In g gs ->
          total_amount g
          = fold_left aadd
              (map r_amount
                 (filter (fun r => (r_category r =? s_category g)%string)
                    (filter in_range (rows c)))) azero
          /\ count g
             = Z.of_nat
                 (List.length
                    (filter (fun r => (r_category r =? s_category g)%string)
                       (filter in_range (rows c)))))
    /\ StronglySorted (fun x y => aleb (total_amount y) (total_amount x) = true) gs
    /\ ((forall r, In r (rows c) -> in_range r = false) ->
        summarize c (Some d1) (Some d2) None = PList []).
Proof.
  intros in_range.
  destruct (select_summary_spec c in_range) as (gs & Hsel & Hnd & Hkeys & Hagg & Hsorted).
  exists gs.
  assert (Hsum : forall v, select_summary c in_range = inr v ->
                  summarize c (Some d1) (Some d2) None
                  = PList (map (fun g => dict_zip cols_summary (tuple_summary g)) v)).
  { intros v Hv. unfold summarize. cbn [PyStr.truthy].
    change (fun r : expense => Sql.between (Some (r_date r)) (Some d1) (Some d2))
      with in_range.
    now rewrite Hv. }
  split; [now apply Hsum|].
  repeat (split; trivial).
  intros Hnone. now rewrite (Hsum [] (select_summary_none c in_range Hnone)).
Qed.

Lemma NoDup_constant (l : list string) (a : string) :
  NoDup l -> (forall x, In x l -> x = a) -> (List.length l <= 1)%nat.
Proof.
  intros Hnd Hall. destruct l as [|x [|y l]]; simpl; try lia.
  exfalso. inversion Hnd as [|? ? Hx _]; subst. apply Hx.
  rewrite (Hall x), (Hall y); simpl; auto.
Qed.

(** C5 as amended. For every date range and every non-empty category
    string [C] given as the filter, [summarize] returns at most one group,
    and the category of that group is exactly [C].  With the empty string
    as the filter, no category filter is applied: [summarize] returns what
    it returns without a category. *)
Theorem summarize_category_filter (c : store) (start_date end_date : option string)
    (C : string) :
  (C <> "" ->
   exists gs : list summary,
     summarize c start_date end_date (Some C)
     = PList (map (fun g => dict_zip cols_summary (tuple_summary g)) gs)
     /\ (List.length gs <= 1)%nat
     /\ (forall g, In g gs -> s_category g = C))
  /\ summarize c start_date end_date (Some "") = summarize c start_date end_date None.
Proof.
  split; [|reflexivity].
  intros HC.
  set (cond := fun r : expense =>
                 Sql.between (Some (r_date r)) start_date end_date
                 && Sql.text_eq (Some (r_category r)) (Some C)).
  destruct (select_summary_spec c cond) as (gs & Hsel & Hnd & Hkeys & _).
  exists gs.
  assert (Hcat : forall g, In g gs -> s_category g = C).
  { intros g Hg. apply (in_map s_category) in Hg. apply Hkeys in Hg.
    destruct Hg as [r [_ [Hc <-]]]. unfold cond in Hc.
    apply andb_true_iff in Hc. destruct Hc as [_ Hc]. simpl in Hc.
    now apply String.eqb_eq in Hc. }
  split; [|split; trivial].
  - unfold summarize. cbn [PyStr.truthy].
    apply String.eqb_neq in HC. rewrite HC. cbn [negb].
    fold cond. now rewrite Hsel.
  - rewrite <- (length_map s_category). apply (NoDup_constant _ C); trivial.
    intros k Hk. apply in_map_iff in Hk. destruct Hk as [g [<- Hg]]. now apply Hcat.
Qed.

(** *** The NOT NULL constraint on [category] *)

(** C4 as amended. What the schema rejects is a missing (NULL) category,
    not an empty one.  For every date, amount, subcategory and note, [add]
    with category [None] returns an error result and leaves the store as it
    was; when date and amount are present the message names the NOT NULL
    constraint on [category].  With the empty string as category, [add]
    succeeds and stores the row. *)
Theorem add_null_category_rejected (c : store) :
  (forall date amount subcategory note,
     exists message,
       add_expense c date amount None subcategory note = (error message, c))
  /\ (forall (date : string) (amount : A) subcategory note,
        add_expense c (Some date) (Some amount) None subcategory note
        = (error "NOT NULL constraint failed: expenses.category", c))
  /\ (forall (date : string) (amount : A) subcategory note,
        exists i,
          add_expense c (Some date) (Some amount) (Some "") subcategory note
          = (success "id" (PInt i),
             {| rows := rows c ++ [mk_expense i date amount ""
                                     (param (Some "") subcategory) (param (Some "") note)];
                seq := i |})).
Proof.
  split; [|split].
  - intros [date|] [amount|] subcategory note; eexists; reflexivity.
  - reflexivity.
  - intros. eexists. reflexivity.
Qed.

(** *** init_db *)

Lemma init_db_rows (c : store) :
  rows (init_db c) = filter (fun r => negb (r_category r =? "test")%string) (rows c).
Proof. unfold init_db. cbn. rewrite filter_app. cbn. now rewrite app_nil_r. Qed.

(** C10. Initialization deletes every stored record whose category is
    exactly ['test'], whoever created it, and leaves the records of every
    other category as they were, in their order. *)
Theorem init_db_deletes_test_category (c : store) :
  rows (init_db c) = filter (fun r => negb (r_category r =? "test")%string) (rows c)
  /\ (forall r, In r (rows (init_db c)) <-> In r (rows c) /\ r_category r <> "test").
Proof.
  split; [apply init_db_rows|].
  intros r. rewrite init_db_rows, filter_In, negb_true_iff, String.eqb_neq. tauto.
Qed.

(** *** Ids that no record has *)

(** C6. For every id, taken among the signed 64-bit integers that an
    INTEGER parameter holds: when no stored record has the id, [get], [edit]
    with at least one field supplied, and [delete] each return the not-found
    error, and the store after [edit] and [delete] is the store before
    ([get] has no access to it). *)
Theorem missing_id_not_found (c : store) (i : Z) :
  - 2 ^ 63 <= i < 2 ^ 63 ->
  (forall r, In r (rows c) -> r_id r <> i) ->
  get_expense c i = not_found i
  /\ (forall date amount category subcategory note,
        ~ (date = None /\ amount = None /\ category = None
           /\ subcategory = None /\ note = None) ->
        edit_expense c i date amount category subcategory note = (not_found i, c))
  /\ delete_expense c i = (not_found i, c).
Proof.
  intros _ Hmiss. split; [|split].
  - unfold get_expense, select_by_id. now rewrite no_row_with_id.
  - intros date amount category subcategory note Hsome.
    assert (Hedit : forall fields,
              update_by_id c fields i = inr (0%nat, c)).
    { intros fields. unfold update_by_id.
      rewrite no_row_with_id, map_no_hit by exact Hmiss.
      now rewrite store_eta. }
    unfold edit_expense.
    destruct date, amount, category, subcategory, note;
      try (exfalso; apply Hsome; repeat split; reflexivity);
      cbn [field app]; rewrite Hedit; reflexivity.
  - unfold delete_expense, delete_by_id.
    rewrite no_row_with_id by exact Hmiss.
    rewrite filter_all.
    + now rewrite store_eta.
    + intros r Hr. apply negb_true_iff, Z.eqb_neq. now apply Hmiss.
Qed.

(** *** Partial update *)

Lemma Forall2_map_self {X : Type} (P : X -> X -> Prop) (f : X -> X) (l : list X) :
  (forall x, P x (f x)) -> Forall2 P l (map f l).
Proof. intros HP. induction l; simpl; constructor; auto. Qed.

Lemma row_hit (l : list expense) (r : expense) :
  In r l -> Nat.eqb (List.length (filter (fun x => r_id x =? r_id r) l)) 0 = false.
Proof.
  intros Hin. apply Nat.eqb_neq. intros Hlen.
  apply length_zero_iff_nil in Hlen.
  assert (Hr : In r (filter (fun x => r_id x =? r_id r) l)).
  { apply filter_In. split; trivial. apply Z.eqb_refl. }
  rewrite Hlen in Hr. contradiction.
Qed.

(** C7. For every stored record and every amount [x], [edit] of its id
    with only [amount] supplied succeeds, puts [x] in the amount of the
    record with that id, keeps its id, date, category, subcategory and note,
    and keeps every other record.  More generally, after any successful
    [edit] the record with the id has the supplied values in the supplied
    fields and its former values in the others, and the other records are
    unchanged. *)
Theorem edit_updates_only_supplied (c : store) :
  (forall (r : expense) (x : A),
     In r (rows c) ->
     exists c',
       edit_expense c (r_id r) None (Some x) None None None
       = (success "updated_id" (PInt (r_id r)), c')
       /\ seq c' = seq c
       /\ Forall2
            (fun old new =>
               new = if r_id old =? r_id r
                     then mk_expense (r_id old) (r_date old) x (r_category old)
                            (r_subcategory old) (r_note old)
                     else old)
            (rows c) (rows c'))
  /\ (forall i date amount category subcategory note c',
        edit_expense c i date amount category subcategory note
        = (success "updated_id" (PInt i), c') ->
        seq c' = seq c
        /\ Forall2
             (fun old new =>
                if r_id old =? i
                then r_id new = r_id old
                     /\ r_date new = match date with Some v => v | None => r_date old end
                     /\ r_amount new
                        = match amount with Some v => v | None => r_amount old end
                     /\ r_category new
                        = match category with Some v => v | None => r_category old end
                     /\ r_subcategory new
                        = match subcategory with
                          | Some v => Some v
                          | None => r_subcategory old
                          end
                     /\ r_note new
                        = match note with Some v => Some v | None => r_note old end
                else new = old)
             (rows c) (rows c')).
Proof.
  split.
  - intros r x Hin. eexists. split; [|split].
    + unfold edit_expense, update_by_id. cbn [field app].
      rewrite (row_hit _ _ Hin). reflexivity.
    + reflexivity.
    + cbn [rows]. apply Forall2_map_self. intros old. reflexivity.
  - intros i date amount category subcategory note c' Hedit.
    unfold edit_expense, update_by_id in Hedit.
    destruct date, amount, category, subcategory, note;
      cbn [field app] in Hedit; try discriminate Hedit;
      match type of Hedit with
      | (if ?b then _ else _) = _ => destruct b; try discriminate Hedit
      end;
      inversion Hedit; subst c'; cbn [rows seq]; (split; [reflexivity|]);
      apply Forall2_map_self; intros old;
      destruct (r_id old =? i); cbn; repeat split; reflexivity.
Qed.

(** *** The shape of what the operations return *)

(** C9 as amended. On every input and every store state, [add], [get],
    [edit] and [delete] return a dict with a status marker: ["success"] with
    a payload, or ["error"] with a message.  [list] and [summarize] return on
    success the bare list of records, which carries no status marker, and
    the error dict otherwise.  Both exception handlers turn every exception
    into the error dict, so that none leaves an operation. *)
Theorem operations_return_results (c : store) :
  (forall date amount category subcategory note,
     let v := fst (add_expense c date amount category subcategory note) in
     (exists i, v = success "id" (PInt i)) \/ (exists message, v = error message))
  /\ (forall expense_id,
        let v := get_expense c expense_id in
        (exists d, v = success "expense" (PDict d)) \/ (exists message, v = error message))
  /\ (forall expense_id date amount category subcategory note,
        let v := fst (edit_expense c expense_id date amount category subcategory note) in
        v = success "updated_id" (PInt expense_id) \/ (exists message, v = error message))
  /\ (forall expense_id,
        let v := fst (delete_expense c expense_id) in
        v = success "deleted_id" (PInt expense_id) \/ (exists message, v = error message))
  /\ (forall start_date end_date,
        let v := list_expenses c start_date end_date in
        (exists l, v = PList l /\ dict_get "status" v = None)
        \/ (exists message, v = error message))
  /\ (forall start_date end_date category,
        let v := summarize c start_date end_date category in
        (exists l, v = PList l /\ dict_get "status" v = None)
        \/ (exists message, v = error message))
  /\ (forall e : exn,
        (exists message, except_add (A := A) e = error message)
        /\ except_any (A := A) e = error (str e)).
Proof.
  repeat apply conj.
  - intros [date|] [amount|] [category|] subcategory note; cbn;
      first [ left; eexists; reflexivity | right; eexists; reflexivity ].
  - intros expense_id. cbn. unfold get_expense, select_by_id.
    destruct (hd_error _); [left | right]; eexists; reflexivity.
  - intros expense_id date amount category subcategory note. cbn.
    unfold edit_expense, update_by_id.
    destruct (field SetDate date ++ _); [right; eexists; reflexivity|].
    destruct (Nat.eqb _ _); [right; eexists; reflexivity | left; reflexivity].
  - intros expense_id. cbn. unfold delete_expense, delete_by_id.
    destruct (Nat.eqb _ _); [right; eexists; reflexivity | left; reflexivity].
  - intros start_date end_date. left. eexists. split; reflexivity.
  - intros start_date end_date category. left. eexists. split; reflexivity.
  - intros e. split; [|reflexivity].
    unfold except_add. destruct (PyStr.contains _ _); eexists; reflexivity.
Qed.

(** *** Ids are never reused *)

Lemma assign_id (fields : list assignment) (r : expense) :
  r_id (fold_left assign fields r) = r_id r.
Proof.
  revert r. induction fields as [|f fields IH]; intros r; simpl; trivial.
  rewrite IH. now destruct f.
Qed.

Lemma add_expense_seq (c : store) date amount category subcategory note :
  let (v, c') := add_expense c date amount category subcategory note in
  (Forall (fun r => r_id r <= seq c) (rows c) ->
   Forall (fun r => r_id r <= seq c') (rows c'))
  /\ seq c <= seq c'
  /\ (forall j, dict_get "id" v = Some (PInt j) -> seq c < j <= seq c').
Proof.
  destruct date as [date|], amount as [amount|], category as [category|]; cbn;
    try (split; [tauto | split; [lia | discriminate]]).
  assert (Hnext : seq c < next_rowid c) by (unfold next_rowid; lia).
  split; [|split].
  - intros Hb. apply Forall_app. split.
    + eapply Forall_impl; [|exact Hb]. cbn. intros r Hr. lia.
    + constructor; [cbn; lia | constructor].
  - lia.
  - intros j Hj. inversion Hj. lia.
Qed.

Lemma init_db_seq (c : store) :
  (Forall (fun r => r_id r <= seq c) (rows c) ->
   Forall (fun r => r_id r <= seq (init_db c)) (rows (init_db c)))
  /\ seq c <= seq (init_db c).
Proof.
  assert (Hnext : seq c < next_rowid c) by (unfold next_rowid; lia).
  unfold init_db. cbn. split; [|lia].
  intros Hb. apply Forall_forall. intros r Hr.
  apply filter_In in Hr. destruct Hr as [Hr _].
  apply in_app_or in Hr. destruct Hr as [Hr|[<-|[]]]; cbn; [|lia].
  rewrite Forall_forall in Hb. specialize (Hb r Hr). lia.
Qed.

Lemma edit_expense_seq (c : store) expense_id date amount category subcategory note :
  let c' := snd (edit_expense c expense_id date amount category subcategory note) in
  seq c' = seq c /\ map r_id (rows c') = map r_id (rows c).
Proof.
  cbn. unfold edit_expense, update_by_id.
  destruct (field SetDate date ++ _) as [|f fields]; [split; reflexivity|].
  assert (Hids : map r_id
                   (map (fun r => if r_id r =? expense_id
                                  then fold_left assign (f :: fields) r else r) (rows c))
                 = map r_id (rows c)).
  { rewrite map_map. apply map_ext. intros r.
    destruct (r_id r =? expense_id); trivial. apply assign_id. }
  destruct (Nat.eqb _ _); cbn; split; trivial.
Qed.

Lemma delete_expense_seq (c : store) (expense_id : Z) :
  let c' := snd (delete_expense c expense_id) in
  seq c' = seq c
  /\ rows c' = filter (fun r => negb (r_id r =? expense_id)) (rows c).
Proof.
  cbn. unfold delete_expense, delete_by_id.
  destruct (Nat.eqb _ _); cbn; split; reflexivity.
Qed.

Lemma Forall_ids (l : list expense) (n : Z) :
  Forall (fun r => r_id r <= n) l <-> Forall (fun i => i <= n) (map r_id l).
Proof. now rewrite Forall_map. Qed.

(** One call keeps the rowids under the counter, never lowers the
    counter, and an id that [add] returns lies above the counter of
    before. *)
Lemma step_seq (c : store) (k : call) :
  let (v, c') := step c k in
  (Forall (fun r => r_id r <= seq c) (rows c) ->
   Forall (fun r => r_id r <= seq c') (rows c'))
  /\ seq c <= seq c'
  /\ (forall j, added_id (k, v) = Some j -> seq c < j <= seq c').
Proof.
  destruct k as [|date amount category subcategory note| | | |i date amount category subcategory note|i];
    cbn [step added_id].
  - destruct (init_db_seq c) as [Hb Hs].
    split; [exact Hb | split; [exact Hs | discriminate]].
  - pose proof (add_expense_seq c date amount category subcategory note) as Hadd.
    destruct (add_expense c date amount category subcategory note) as [v c'].
    destruct Hadd as (Hb & Hs & Hj).
    split; [exact Hb | split; [exact Hs |]].
    intros j. destruct (dict_get "id" v) as [[]|]; try discriminate.
    intros E. inversion E; subst. now apply Hj.
  - split; [tauto | split; [lia | discriminate]].
  - split; [tauto | split; [lia | discriminate]].
  - split; [tauto | split; [lia | discriminate]].
  - pose proof (edit_expense_seq c i date amount category subcategory note) as Hedit.
    destruct (edit_expense c i date amount category subcategory note) as [v c'].
    cbn in Hedit. destruct Hedit as [Hs Hids].
    split; [| split; [lia | discriminate]].
    rewrite !Forall_ids, Hids, Hs. trivial.
  - pose proof (delete_expense_seq c i) as Hdel.
    destruct (delete_expense c i) as [v c'].
    cbn in Hdel. destruct Hdel as [Hs Hrows].
    split; [| split; [lia | discriminate]].
    rewrite Hrows, Hs. intros Hb. apply Forall_forall. intros r Hr.
    apply filter_In in Hr. rewrite Forall_forall in Hb. now apply Hb.
Qed.

Lemma run_seq (ks : list call) (c : store) :
  Forall (fun r => r_id r <= seq c) (rows c) ->
  Forall (fun r => r_id r <= seq (snd (run c ks))) (rows (snd (run c ks)))
  /\ Forall (fun j => seq c < j) (added_ids (fst (run c ks)))
  /\ StronglySorted Z.lt (added_ids (fst (run c ks))).
Proof.
  revert c. induction ks as [|k ks IH]; intros c Hb; cbn [run].
  - cbn. repeat split; trivial; constructor.
  - pose proof (step_seq c k) as Hstep.
    destruct (step c k) as [v c1]. destruct Hstep as (Hb1 & Hs & Hj).
    specialize (IH c1 (Hb1 Hb)).
    destruct (run c1 ks) as [log c2]. cbn [fst snd] in *.
    destruct IH as (Hb2 & Hall & Hsorted).
    split; [exact Hb2|].
    cbn [added_ids]. destruct (added_id (k, v)) as [j|].
    + specialize (Hj j eq_refl). split.
      * constructor; [lia|]. eapply Forall_impl; [|exact Hall]. cbn. lia.
      * constructor; trivial. eapply Forall_impl; [|exact Hall]. cbn. lia.
    + split; trivial. eapply Forall_impl; [|exact Hall]. cbn. lia.
Qed.

(** *** Stored ids come from add *)

Lemma step_ids (c : store) (k : call) (i : Z) :
  let (v, c') := step c k in
  In i (map r_id (rows c')) ->
  In i (map r_id (rows c)) \/ added_id (k, v) = Some i.
Proof.
  destruct k as [|date amount category subcategory note| | |
                 |e date amount category subcategory note|e];
    cbn [step added_id]; try tauto.
  - rewrite init_db_rows.
    intros Hi. left. apply in_map_iff in Hi. destruct Hi as [r [<- Hr]].
    apply filter_In in Hr. apply in_map. tauto.
  - destruct date as [date|], amount as [amount|], category as [category|]; cbn; try tauto.
    rewrite map_app, in_app_iff. cbn. intros [Hi|[<-|[]]]; auto.
  - pose proof (edit_expense_seq c e date amount category subcategory note) as Hedit.
    destruct (edit_expense c e date amount category subcategory note) as [v c'].
    cbn in Hedit. destruct Hedit as [_ ->]. tauto.
  - pose proof (delete_expense_seq c e) as Hdel.
    destruct (delete_expense c e) as [v c'].
    cbn in Hdel. destruct Hdel as [_ ->].
    intros Hi. left. apply in_map_iff in Hi. destruct Hi as [r [<- Hr]].
    apply filter_In in Hr. apply in_map. tauto.
Qed.

(** Every id in the store was returned by an [add] of its history: an id
    that [add] never returned is an id that no stored record has. *)
Lemma stored_ids_were_added (ks : list call) (c : store) (i : Z) :
  In i (map r_id (rows (snd (run c ks)))) ->
  In i (map r_id (rows c)) \/ In i (added_ids (fst (run c ks))).
Proof.
  revert c. induction ks as [|k ks IH]; intros c; cbn [run].
  - cbn. tauto.
  - pose proof (step_ids c k i) as Hstep.
    destruct (step c k) as [v c1].
    specialize (IH c1). destruct (run c1 ks) as [log c2]. cbn [fst snd] in *.
    intros Hi. cbn [added_ids].
    destruct (IH Hi) as [Hc1|Hlog].
    + destruct (Hstep Hc1) as [Hc|Hadd]; [now left|].
      right. rewrite Hadd. now left.
    + right. destruct (added_id (k, v)); [now right | exact Hlog].
Qed.

(** C8. In every history of the store, from the empty file on: when
    [delete] of an id succeeds, [get] of that id then returns the not-found
    error, and in every continuation of the history the ids that [add]
    returns are all greater than the deleted id, so it is never assigned
    again; and over the whole history each id that [add] returns is greater
    than the ones returned before it. *)
Theorem ids_never_reused (before after : list call) (i : Z) :
  let c := snd (run empty before) in
  fst (delete_expense c i) = success "deleted_id" (PInt i) ->
  let c1 := snd (delete_expense c i) in
  get_expense c1 i = not_found i
  /\ Forall (fun j => i < j) (added_ids (fst (run c1 after)))
  /\ StronglySorted Z.lt (added_ids (fst (run empty (before ++ Delete i :: after)))).
Proof.
  intros c Hdel c1.
  assert (Hb : Forall (fun r => r_id r <= seq c) (rows c)).
  { apply (run_seq before empty). constructor. }
  destruct (delete_expense_seq c i) as [Hs Hrows]. fold c1 in Hs, Hrows.
  assert (Hi : i <= seq c).
  { unfold delete_expense, delete_by_id in Hdel.
    destruct (filter (fun r => r_id r =? i) (rows c)) as [|r l] eqn:E;
      [cbn in Hdel; discriminate Hdel|].
    assert (Hr : In r (filter (fun r => r_id r =? i) (rows c)))
      by (rewrite E; now left).
    apply filter_In in Hr. destruct Hr as [Hr Hid]. apply Z.eqb_eq in Hid.
    rewrite Forall_forall in Hb. specialize (Hb r Hr). lia. }
  assert (Hb1 : Forall (fun r => r_id r <= seq c1) (rows c1)).
  { rewrite Hrows, Hs. apply Forall_forall. intros r Hr.
    apply filter_In in Hr. rewrite Forall_forall in Hb. now apply Hb. }
  destruct (run_seq after c1 Hb1) as (_ & Hall & _).
  split; [|split].
  3: { apply (run_seq (before ++ Delete i :: after) empty). constructor. }
  - unfold get_expense, select_by_id. rewrite Hrows.
    rewrite no_row_with_id; trivial.
    intros r Hr. apply filter_In in Hr. destruct Hr as [_ Hr].
    apply negb_true_iff in Hr. now apply Z.eqb_neq.
  - eapply Forall_impl; [|exact Hall]. cbn. lia.
Qed.

End Facts.

End ExpensesFacts.

(** ** The concrete ledger *)

Module ScenarioFacts.

Import Expenses Scenario ExpensesFacts.

Example lower_ex :
  PyStr.lower "Attempt to write a READONLY database"
  = "attempt to write a readonly database".
Proof. reflexivity. Qed.

Example contains_ex :
  PyStr.contains "readonly" "attempt to write a readonly database" = true.
Proof. reflexivity. Qed.

Example str_of_int_ex :
  PyStr.str_of_int 42 = "42" /\ PyStr.str_of_int (-7) = "-7" /\ PyStr.str_of_int 0 = "0".
Proof. repeat split; reflexivity. Qed.

Example group_by_ex :
  Sql.group_by Z.eqb fst [(1, 10); (2, 20); (1, 30)]
  = [(1, [(1, 10); (1, 30)]); (2, [(2, 20)])].
Proof. reflexivity. Qed.

(** The sentinel row of [init_db] has taken id 1. *)
Example ledger_rows :
  ledger
  = {| rows := [mk_expense 2 "2024-01-05" 1000 "Food" (Some "") (Some "");
                mk_expense 3 "2024-01-10" 550 "Food" (Some "") (Some "");
                mk_expense 4 "2024-02-01" 10000 "Travel" (Some "") (Some "")];
       seq := 4 |}.
Proof. reflexivity. Qed.

Example ledger_list :
  list_expenses ledger (Some "2024-01-01") (Some "2024-01-31")
  = PList [PDict [("id", PInt 3); ("date", PStr "2024-01-10"); ("amount", PFloat 550);
                  ("category", PStr "Food"); ("subcategory", PStr ""); ("note", PStr "")];
           PDict [("id", PInt 2); ("date", PStr "2024-01-05"); ("amount", PFloat 1000);
                  ("category", PStr "Food"); ("subcategory", PStr ""); ("note", PStr "")]].
Proof. reflexivity. Qed.

Example ledger_summarize :
  summarize ledger (Some "2024-01-01") (Some "2024-02-28") None
  = PList [PDict [("category", PStr "Travel"); ("total_amount", PFloat 10000);
                  ("count", PInt 1)];
           PDict [("category", PStr "Food"); ("total_amount", PFloat 1550);
                  ("count", PInt 2)]].
Proof. reflexivity. Qed.

Example ledger_readonly_message :
  except_add (A := Z) (OperationalError "attempt to write a readonly database")
  = error "Database is read-only".
Proof. reflexivity. Qed.

(** C4, counterexample: on the ledger, [add] with the empty string as
    category does not fail; it returns id 5 and the row is stored. *)
Lemma add_empty_category_accepted :
  add_expense ledger (Some "2024-03-01") (Some 1000) (Some "") None None
  = (success "id" (PInt 5),
     {| rows := rows ledger ++ [mk_expense 5 "2024-03-01" 1000 "" (Some "") (Some "")];
        seq := 5 |})
  /\ ~ (exists message,
          add_expense ledger (Some "2024-03-01") (Some 1000) (Some "") None None
          = (error message, ledger)).
Proof.
  split; [reflexivity|]. intros [message Hm]. discriminate Hm.
Qed.

(** C5, counterexample: with the empty string as the category filter,
    [summarize] applies no filter and returns both groups of the ledger. *)
Lemma summarize_empty_filter_two_groups :
  summarize ledger (Some "2024-01-01") (Some "2024-02-28") (Some "")
  = PList [PDict [("category", PStr "Travel"); ("total_amount", PFloat 10000);
                  ("count", PInt 1)];
           PDict [("category", PStr "Food"); ("total_amount", PFloat 1550);
                  ("count", PInt 2)]]
  /\ ~ (exists gs : list summary,
          summarize ledger (Some "2024-01-01") (Some "2024-02-28") (Some "")
          = PList (map (fun g => dict_zip cols_summary (tuple_summary g)) gs)
          /\ (List.length gs <= 1)%nat
          /\ (forall g, In g gs -> s_category g = "")).
Proof.
  split; [reflexivity|].
  intros (gs & Hgs & Hlen & _).
  change (summarize ledger (Some "2024-01-01") (Some "2024-02-28") (Some ""))
    with (PList (A := Z)
            [PDict [("category", PStr "Travel"); ("total_amount", PFloat 10000);
                    ("count", PInt 1)];
             PDict [("category", PStr "Food"); ("total_amount", PFloat 1550);
                    ("count", PInt 2)]]) in Hgs.
  inversion Hgs as [Hmap].
  apply (f_equal (@List.length _)) in Hmap.
  rewrite length_map in Hmap. cbn in Hmap. lia.
Qed.

(** C9, counterexample: a successful [list] and a successful
    [summarize] return a list, which has no status marker. *)
Lemma list_result_has_no_status :
  list_expenses ledger (Some "2024-02-01") (Some "2024-02-28")
  = PList [PDict [("id", PInt 4); ("date", PStr "2024-02-01"); ("amount", PFloat 10000);
                  ("category", PStr "Travel"); ("subcategory", PStr "");
                  ("note", PStr "")]]
  /\ dict_get "status" (list_expenses ledger (Some "2024-02-01") (Some "2024-02-28")) = None
  /\ dict_get "status" (summarize ledger (Some "2024-02-01") (Some "2024-02-28") None) = None.
Proof. repeat split; reflexivity. Qed.

(** Witness of C5: the filters ["Food"] and [""] on the ledger. *)
Lemma summarize_category_filter_witness :
  "Food" <> ""
  /\ (exists gs : list summary,
        summarize ledger (Some "2024-01-01") (Some "2024-02-28") (Some "Food")
        = PList (map (fun g => dict_zip cols_summary (tuple_summary g)) gs)
        /\ (List.length gs <= 1)%nat
        /\ (forall g, In g gs -> s_category g = "Food"))
  /\ summarize ledger (Some "2024-01-01") (Some "2024-02-28") (Some "")
     = summarize ledger (Some "2024-01-01") (Some "2024-02-28") None.
Proof.
  split; [discriminate|].
  destruct (summarize_category_filter ledger (Some "2024-01-01") (Some "2024-02-28")
              "Food") as [Hfilter Hempty].
  split; [apply Hfilter; discriminate | exact Hempty].
Defined.

(** Witness of C6: id 9 on the ledger, whose ids are 2, 3 and 4. *)
Lemma missing_id_not_found_witness :
  - 2 ^ 63 <= 9 < 2 ^ 63
  /\ get_expense ledger 9 = not_found 9
  /\ edit_expense ledger 9 None (Some 700) None None None = (not_found 9, ledger)
  /\ delete_expense ledger 9 = (not_found 9, ledger).
Proof.
  assert (Hrange : - 2 ^ 63 <= 9 < 2 ^ 63) by lia.
  split; [exact Hrange|].
  assert (Hmiss : forall r, In r (rows ledger) -> r_id r <> 9).
  { intros r Hr. vm_compute in Hr.
    destruct Hr as [<-|[<-|[<-|[]]]]; discriminate. }
  destruct (missing_id_not_found ledger 9 Hrange Hmiss) as (Hget & Hedit & Hdel).
  split; [exact Hget | split; [|exact Hdel]].
  apply Hedit. intros (_ & Hamount & _). discriminate Hamount.
Defined.

(** Witness of C7: the amount of record 3 of the ledger is set to 700. *)
Lemma edit_updates_only_supplied_witness :
  exists c',
    edit_expense ledger 3 None (Some 700) None None None
    = (success "updated_id" (PInt 3), c')
    /\ seq c' = seq ledger
    /\ Forall2
         (fun old new =>
            new = if r_id old =? 3
                  then mk_expense (r_id old) (r_date old) 700 (r_category old)
                         (r_subcategory old) (r_note old)
                  else old)
         (rows ledger) (rows c').
Proof.
  apply (proj1 (edit_updates_only_supplied ledger)
           (mk_expense 3 "2024-01-10" 550 "Food" (Some "") (Some "")) 700).
  vm_compute. auto.
Defined.

(** Witness of C8: record 3 of the ledger is deleted; the process then
    restarts and two records are added. *)
Lemma ids_never_reused_witness :
  let after := [Add (Some "2024-03-01") (Some 100) (Some "Food") None None;
                Start;
                Add (Some "2024-03-02") (Some 200) (Some "Food") None None] in
  let c1 := snd (delete_expense ledger 3) in
  get_expense c1 3 = not_found 3
  /\ Forall (fun j => 3 < j) (added_ids (fst (run c1 after)))
  /\ StronglySorted Z.lt (added_ids (fst (run empty (history ++ Delete 3 :: after)))).
Proof.
  intros after.
  apply (ids_never_reused history after 3).
  reflexivity.
Defined.

Example ids_after_delete :
  added_ids (fst (run (snd (delete_expense ledger 3))
                    [Add (Some "2024-03-01") (Some 100) (Some "Food") None None;
                     Start;
                     Add (Some "2024-03-02") (Some 200) (Some "Food") None None]))
  = [5; 7].
Proof. reflexivity. Qed.

End ScenarioFacts.

(** ** Further properties of the store *)

Module StoreFacts.

Import Expenses ExpensesFacts.

Section More.

Context {A : Type} `{Amount A}.

#[local] Abbreviation expense := (expense (A := A)).
#[local] Abbreviation store := (store (A := A)).

(** *** Rowids in the table *)

Lemma sorted_snoc (l : list Z) (x : Z) :
  StronglySorted Z.lt l -> Forall (fun y => y < x) l -> StronglySorted Z.lt (l ++ [x]).
Proof.
  induction 1 as [|y l Hs IH Hy]; intros Hx; simpl.
  - repeat constructor.
  - inversion Hx as [|? ? Hyx Hlx]; subst. constructor.
    + now apply IH.
    + apply Forall_app. split; [exact Hy | now repeat constructor].
Qed.

Lemma sorted_filter_ids (f : expense -> bool) (l : list expense) :
  StronglySorted Z.lt (map r_id l) -> StronglySorted Z.lt (map r_id (filter f l)).
Proof.
  induction l as [|x l IH]; simpl; intros Hs; [constructor|].
  inversion Hs as [|? ? Hs' Hall]; subst.
  destruct (f x); [|now apply IH]. simpl. constructor; [now apply IH|].
  apply Forall_forall. intros i Hi. rewrite Forall_forall in Hall. apply Hall.
  apply in_map_iff in Hi. destruct Hi as [r [<- Hr]].
  apply filter_In in Hr. apply in_map. tauto.
Qed.

Lemma sorted_NoDup (l : list Z) : StronglySorted Z.lt l -> NoDup l.
Proof.
  induction 1 as [|x l Hs IH Hx]; constructor; trivial.
  intros Hin. rewrite Forall_forall in Hx. specialize (Hx x Hin). lia.
Qed.

Lemma add_expense_rows (c : store) date amount category subcategory note :
  let c' := snd (add_expense c date amount category subcategory note) in
  c' = c
  \/ exists r, rows c' = rows c ++ [r] /\ r_id r = next_rowid c /\ seq c' = next_rowid c.
Proof.
  destruct date as [date|], amount as [amount|], category as [category|]; cbn; auto.
  right. eexists. repeat split.
Qed.

Lemma step_sorted (c : store) (k : call) :
  StronglySorted Z.lt (map r_id (rows c)) ->
  StronglySorted Z.lt (map r_id (rows (snd (step c k)))).
Proof.
  intros Hs.
  destruct k as [|date amount category subcategory note| | |
                 |e date amount category subcategory note|e]; cbn [step snd]; trivial.
  - rewrite init_db_rows. now apply sorted_filter_ids.
  - destruct (add_expense_rows c date amount category subcategory note)
      as [->|[r [-> [Hid _]]]]; trivial.
    rewrite map_app. cbn. apply sorted_snoc; trivial.
    apply Forall_forall. intros i Hi. apply in_map_iff in Hi.
    destruct Hi as [x [<- Hx]]. rewrite Hid. now apply next_rowid_fresh.
  - destruct (edit_expense_seq c e date amount category subcategory note) as [_ ->].
    exact Hs.
  - destruct (delete_expense_seq c e) as [_ ->]. now apply sorted_filter_ids.
Qed.

Lemma run_sorted (ks : list call) (c : store) :
  StronglySorted Z.lt (map r_id (rows c)) ->
  StronglySorted Z.lt (map r_id (rows (snd (run c ks)))).
Proof.
  revert c. induction ks as [|k ks IH]; intros c Hs; cbn [run]; trivial.
  pose proof (step_sorted c k Hs) as Hstep.
  destruct (step c k) as [v c1]. specialize (IH c1 Hstep).
  destruct (run c1 ks) as [log c2]. exact IH.
Qed.

(** With increasing rowids, the rows under the id of a stored row are
    that row alone. *)
Lemma unique_hit (l : list expense) (r : expense) :
  StronglySorted Z.lt (map r_id l) -> In r l ->
  filter (fun x => r_id x =? r_id r) l = [r].
Proof.
  induction l as [|x l IH]; simpl; intros Hs Hin; [contradiction|].
  inversion Hs as [|? ? Hs' Hall]; subst.
  rewrite Forall_forall in Hall.
  destruct Hin as [->|Hin].
  - rewrite Z.eqb_refl. f_equal. apply no_row_with_id.
    intros y Hy. specialize (Hall (r_id y) (in_map r_id _ _ Hy)). lia.
  - specialize (Hall (r_id r) (in_map r_id _ _ Hin)).
    destruct (Z.eqb_spec (r_id x) (r_id r)) as [E|E]; [lia|]. now apply IH.
Qed.

(** X1. In every history of the store, from the empty table on, the ids
    of the stored records increase strictly along the table, hence are
    pairwise distinct, and none exceeds the AUTOINCREMENT counter. *)
Theorem stored_ids_increasing (ks : list call) :
  let c := snd (run (A := A) empty ks) in
  StronglySorted Z.lt (map r_id (rows c))
  /\ NoDup (map r_id (rows c))
  /\ Forall (fun r => r_id r <= seq c) (rows c).
Proof.
  intros c.
  assert (Hs : StronglySorted Z.lt (map r_id (rows c))).
  { apply run_sorted. constructor. }
  split; [exact Hs | split].
  - now apply sorted_NoDup.
  - apply (run_seq ks empty). constructor.
Qed.

(** X2. In every history from the empty table on, [get] with the id of
    a stored record returns that record, with all six columns. *)
Theorem get_returns_stored (ks : list call) (r : expense) :
  In r (rows (snd (run empty ks))) ->
  get_expense (snd (run empty ks)) (r_id r)
  = success "expense"
      (PDict [("id", PInt (r_id r)); ("date", PStr (r_date r));
              ("amount", PFloat (r_amount r)); ("category", PStr (r_category r));
              ("subcategory", of_text (r_subcategory r)); ("note", of_text (r_note r))]).
Proof.
  intros Hin. unfold get_expense, select_by_id.
  rewrite (unique_hit _ r); trivial.
  apply run_sorted. constructor.
Qed.

(** *** add *)

(** X3. [add] never stores a record that lacks one of the three
    required columns: when date, amount or category is [None], [add] returns
    an error, the store is unchanged, and the message is that of the NOT
    NULL constraint of the first missing column, in the order date, amount,
    category; so an [add] that succeeded had all three. *)
Theorem add_missing_column_rejected (c : store) (subcategory note : option (option string)) :
  (forall amount category,
     add_expense c None amount category subcategory note
     = (error "NOT NULL constraint failed: expenses.date", c))
  /\ (forall (date : string) category,
        add_expense c (Some date) None category subcategory note
        = (error "NOT NULL constraint failed: expenses.amount", c))
  /\ (forall (date : string) (amount : A),
        add_expense c (Some date) (Some amount) None subcategory note
        = (error "NOT NULL constraint failed: expenses.category", c))
  /\ (forall date amount category,
        (exists i, fst (add_expense c date amount category subcategory note)
                   = success "id" (PInt i)) ->
        date <> None /\ amount <> None /\ category <> None).
Proof.
  repeat apply conj; try reflexivity.
  intros [date|] [amount|] [category|] [i Hi]; try discriminate Hi.
  repeat split; discriminate.
Qed.

(** X4. [add] then [delete] of the returned id: the delete succeeds and
    the table has its former rows again, while the counter keeps the id, so
    that it is not handed out again. *)
Theorem add_then_delete (c : store) (date : string) (amount : A) (category : string)
    (subcategory note : option (option string)) :
  exists i,
    fst (add_expense c (Some date) (Some amount) (Some category) subcategory note)
    = success "id" (PInt i)
    /\ delete_expense
         (snd (add_expense c (Some date) (Some amount) (Some category) subcategory note)) i
       = (success "deleted_id" (PInt i), {| rows := rows c; seq := i |})
    /\ seq c < i.
Proof.
  exists (next_rowid c). split; [reflexivity | split].
  - cbn. unfold delete_expense, delete_by_id. cbn [rows seq].
    set (r := mk_expense (next_rowid c) date amount category _ _).
    assert (Hold : forall x, In x (rows c) -> r_id x <> next_rowid c).
    { intros x Hx. apply next_rowid_fresh in Hx. lia. }
    rewrite !filter_app. cbn. rewrite Z.eqb_refl. cbn.
    rewrite no_row_with_id by exact Hold.
    rewrite filter_all.
    + cbn. now rewrite app_nil_r.
    + intros x Hx. apply negb_true_iff, Z.eqb_neq. now apply Hold.
  - unfold next_rowid. lia.
Qed.

(** *** edit *)

(** X5. [edit] answers "No fields to update" exactly when none of the
    five fields is supplied, whether or not the id exists, and the store is
    then unchanged. *)
Theorem edit_no_fields (c : store) (expense_id : Z) :
  edit_expense c expense_id None None None None None = (error "No fields to update", c)
  /\ (forall date amount category subcategory note,
        fst (edit_expense c expense_id date amount category subcategory note)
        = error "No fields to update"
        <-> date = None /\ amount = None /\ category = None
            /\ subcategory = None /\ note = None).
Proof.
  split; [reflexivity|].
  intros date amount category subcategory note. split.
  - unfold edit_expense, update_by_id.
    destruct date, amount, category, subcategory, note; cbn [field app];
      try (destruct (Nat.eqb _ _); cbn; intros E; discriminate E).
    intros _. repeat split.
  - intros (-> & -> & -> & -> & ->). reflexivity.
Qed.

(** *** delete *)

(** X6. [delete] of the id of a stored record succeeds, removes the
    records with that id and no other, keeps the order of the rest and
    leaves the counter as it is. *)
Theorem delete_stored (c : store) (r : expense) :
  In r (rows c) ->
  exists c',
    delete_expense c (r_id r) = (success "deleted_id" (PInt (r_id r)), c')
    /\ rows c' = filter (fun x => negb (r_id x =? r_id r)) (rows c)
    /\ (forall x, In x (rows c') <-> In x (rows c) /\ r_id x <> r_id r)
    /\ seq c' = seq c.
Proof.
  intros Hin. eexists. split; [|split; [|split]].
  - unfold delete_expense, delete_by_id. rewrite (row_hit _ _ Hin). reflexivity.
  - reflexivity.
  - intros x. cbn [rows]. rewrite filter_In, negb_true_iff, Z.eqb_neq. tauto.
  - reflexivity.
Qed.

(** *** Records with another id *)

Lemma filter_id_update (f : expense -> expense) (l : list expense) (i j : Z) :
  (forall r, r_id (f r) = r_id r) -> j <> i ->
  filter (fun r => r_id r =? j) (map (fun r => if r_id r =? i then f r else r) l)
  = filter (fun r => r_id r =? j) l.
Proof.
  intros Hf Hji. induction l as [|x l IH]; simpl; trivial. rewrite IH.
  destruct (Z.eqb_spec (r_id x) i) as [E|E]; trivial.
  rewrite Hf. destruct (Z.eqb_spec (r_id x) j) as [E'|E']; [lia | trivial].
Qed.

Lemma filter_id_delete (l : list expense) (i j : Z) :
  j <> i ->
  filter (fun r => r_id r =? j) (filter (fun r => negb (r_id r =? i)) l)
  = filter (fun r => r_id r =? j) l.
Proof.
  intros Hji. induction l as [|x l IH]; simpl; trivial.
  destruct (Z.eqb_spec (r_id x) i) as [E|E]; simpl; rewrite IH; trivial.
  destruct (Z.eqb_spec (r_id x) j) as [E'|E']; [lia | trivial].
Qed.

(** X7. [edit] and [delete] of one id, and [add], leave the records of
    every other id as they are: [get] with an id other than the edited,
    deleted or newly returned one answers after the call what it answered
    before. *)
Theorem other_records_untouched (c : store) (i j : Z) :
  j <> i ->
  (forall date amount category subcategory note,
     get_expense (snd (edit_expense c i date amount category subcategory note)) j
     = get_expense c j)
  /\ get_expense (snd (delete_expense c i)) j = get_expense c j
  /\ (forall date amount category subcategory note,
        fst (add_expense c date amount category subcategory note) = success "id" (PInt i) ->
        get_expense (snd (add_expense c date amount category subcategory note)) j
        = get_expense c j).
Proof.
  intros Hji. split; [|split].
  - intros date amount category subcategory note.
    unfold edit_expense, update_by_id.
    destruct (field SetDate date ++ _) as [|f fields]; [reflexivity|].
    assert (Hget : forall c' : store,
              rows c' = map (fun r => if r_id r =? i
                                      then fold_left assign (f :: fields) r else r) (rows c) ->
              get_expense c' j = get_expense c j).
    { intros c' Hc'. unfold get_expense, select_by_id. rewrite Hc'.
      rewrite filter_id_update; trivial. intros r. apply assign_id. }
    destruct (Nat.eqb _ _); apply Hget; reflexivity.
  - destruct (delete_expense_seq c i) as [_ Hrows].
    unfold get_expense, select_by_id. rewrite Hrows.
    now rewrite filter_id_delete.
  - intros [date|] [amount|] [category|] subcategory note; cbn; try discriminate.
    intros Hid. inversion Hid as [Hi].
    unfold get_expense, select_by_id. cbn [rows].
    rewrite filter_app. cbn. rewrite Hi.
    destruct (Z.eqb_spec i j) as [E|E]; [congruence|]. now rewrite app_nil_r.
Qed.

(** X8. In every history from the empty table on, [edit] of a stored
    record with at least one field supplied succeeds, and [get] then returns
    the record with the supplied values in the supplied fields and the
    former values in the others. *)
Theorem edit_then_get (ks : list call) (r : expense) (date : option string)
    (amount : option A) (category subcategory note : option string) :
  In r (rows (snd (run empty ks))) ->
  ~ (date = None /\ amount = None /\ category = None
     /\ subcategory = None /\ note = None) ->
  let c := snd (run empty ks) in
  fst (edit_expense c (r_id r) date amount category subcategory note)
  = success "updated_id" (PInt (r_id r))
  /\ get_expense (snd (edit_expense c (r_id r) date amount category subcategory note))
       (r_id r)
     = success "expense"
         (PDict [("id", PInt (r_id r));
                 ("date", PStr match date with Some v => v | None => r_date r end);
                 ("amount", PFloat match amount with Some v => v | None => r_amount r end);
                 ("category",
                   PStr match category with Some v => v | None => r_category r end);
                 ("subcategory",
                   match subcategory with Some v => PStr v | None => of_text (r_subcategory r) end);
                 ("note",
                   match note with Some v => PStr v | None => of_text (r_note r) end)]).
Proof.
  intros Hin Hsome c.
  assert (Hs : StronglySorted Z.lt (map r_id (rows c))).
  { apply run_sorted. constructor. }
  assert (Hupd : forall fields,
            filter (fun x => r_id x =? r_id r)
              (map (fun x => if r_id x =? r_id r then fold_left assign fields x else x)
                 (rows c))
            = [fold_left assign fields r]).
  { intros fields.
    set (g := fun x : expense => if r_id x =? r_id r then fold_left assign fields x else x).
    assert (Hg : forall x, r_id (g x) = r_id x).
    { intros x. unfold g. destruct (r_id x =? r_id r); trivial. apply assign_id. }
    assert (Hgr : g r = fold_left assign fields r).
    { unfold g. now rewrite Z.eqb_refl. }
    assert (Hhit : filter (fun x => r_id x =? r_id (g r)) (map g (rows c)) = [g r]).
    { apply unique_hit.
      - rewrite map_map. erewrite map_ext; [exact Hs | exact Hg].
      - now apply in_map. }
    rewrite Hg in Hhit. now rewrite <- Hgr. }
  change (In r (rows c)) in Hin.
  unfold edit_expense, update_by_id.
  destruct date, amount, category, subcategory, note;
    try (exfalso; apply Hsome; repeat split; reflexivity);
    cbn [field app]; rewrite (row_hit _ _ Hin); cbn [fst snd];
    (split; [reflexivity|]);
    unfold get_expense, select_by_id; cbn [rows]; rewrite Hupd; reflexivity.
Qed.

(** *** Date ranges *)

Lemma compare_refl (a : string) : String.compare a a = Eq.
Proof.
  pose proof (String.compare_antisym a a) as E.
  destruct (String.compare a a); trivial; discriminate E.
Qed.

Lemma leb_cases (a b : string) :
  (a <=? b)%string = true -> (a <? b)%string = true \/ a = b.
Proof.
  unfold String.leb, String.ltb.
  destruct (String.compare a b) eqn:E; try discriminate; auto.
  right. now apply String.compare_eq_iff.
Qed.

Lemma ltb_irrefl (a : string) : (a <? a)%string = false.
Proof. unfold String.ltb. now rewrite compare_refl. Qed.

Lemma inverted_range (d1 d2 x : string) :
  (d2 <? d1)%string = true -> (d1 <=? x)%string && (x <=? d2)%string = false.
Proof.
  intros Hinv. apply andb_false_iff.
  destruct (d1 <=? x)%string eqn:E1; [right | now left].
  destruct (x <=? d2)%string eqn:E2; trivial. exfalso.
  assert (Hx : (x <? d1)%string = true).
  { destruct (leb_cases _ _ E2) as [Hlt| ->]; trivial.
    eapply TextOrder.ltb_trans; eassumption. }
  destruct (leb_cases _ _ E1) as [Hlt|Heq].
  - pose proof (TextOrder.ltb_trans _ _ _ Hlt Hx) as Hc.
    rewrite ltb_irrefl in Hc. discriminate.
  - subst x. rewrite ltb_irrefl in Hx. discriminate.
Qed.

(** X9. When the end date lies strictly before the start date, [list]
    and [summarize], with or without a category, return the empty list. *)
Theorem inverted_range_is_empty (c : store) (d1 d2 : string) :
  (d2 <? d1)%string = true ->
  list_expenses c (Some d1) (Some d2) = PList []
  /\ (forall category, summarize c (Some d1) (Some d2) category = PList []).
Proof.
  intros Hinv. split.
  - unfold list_expenses, select_range.
    rewrite SqlFacts.filter_none; [reflexivity|].
    intros r _. now apply inverted_range.
  - intros category. unfold summarize.
    destruct (PyStr.truthy category); rewrite select_summary_none; trivial.
    + intros r _. apply andb_false_iff. left. now apply inverted_range.
    + intros r _. now apply inverted_range.
Qed.

(** X10. A bound that is [None] is bound as NULL, and no date compares
    with NULL: [list] and [summarize] with a start or an end date [None]
    return the empty list, not an error. *)
Theorem null_bound_is_empty (c : store) (d category : option string) :
  list_expenses c None d = PList []
  /\ list_expenses c d None = PList []
  /\ summarize c None d category = PList []
  /\ summarize c d None category = PList [].
Proof.
  assert (Hl : forall r : expense, Sql.between (Some (r_date r)) None d = false)
    by reflexivity.
  assert (Hr : forall r : expense, Sql.between (Some (r_date r)) d None = false).
  { intros r. unfold Sql.between. destruct d; cbn; [apply andb_false_r | reflexivity]. }
  repeat apply conj.
  - unfold list_expenses, select_range. now rewrite SqlFacts.filter_none.
  - unfold list_expenses, select_range. now rewrite SqlFacts.filter_none.
  - unfold summarize.
    destruct (PyStr.truthy category); rewrite select_summary_none; trivial.
  - unfold summarize.
    destruct (PyStr.truthy category); rewrite select_summary_none; trivial.
    intros r _. now rewrite Hr.
Qed.

(** *** Counts and totals *)

Lemma sum_perm (l l' : list Z) :
  Permutation l l' -> fold_right Z.add 0 l = fold_right Z.add 0 l'.
Proof. induction 1; simpl; lia. Qed.

Lemma add_to_group_size {T K : Type} (keq : K -> K -> bool) (k : K) (x : T)
    (gs : list (K * list T)) :
  fold_right Z.add 0
    (map (fun g => Z.of_nat (List.length (snd g))) (Sql.add_to_group keq k x gs))
  = fold_right Z.add 0 (map (fun g => Z.of_nat (List.length (snd g))) gs) + 1.
Proof.
  induction gs as [|[k' g] gs IH]; simpl; trivial.
  destruct (keq k k'); simpl.
  - rewrite length_app. simpl. lia.
  - rewrite IH. lia.
Qed.

Lemma group_by_size {T K : Type} (keq : K -> K -> bool) (key : T -> K) (l : list T) :
  fold_right Z.add 0
    (map (fun g => Z.of_nat (List.length (snd g))) (Sql.group_by keq key l))
  = Z.of_nat (List.length l).
Proof.
  induction l as [|x l IH] using rev_ind; [reflexivity|].
  rewrite SqlFacts.group_by_snoc, add_to_group_size, IH, length_app. simpl. lia.
Qed.

(** X11. Over one date range, the counts of the groups that [summarize]
    returns without a category filter add up to the number of records that
    [list] returns. *)
Theorem summarize_counts_add_up (c : store) (d1 d2 : string) :
  exists (rs : list expense) (gs : list summary),
    list_expenses c (Some d1) (Some d2)
    = PList (map (fun r => dict_zip cols_expense (tuple_expense r)) rs)
    /\ summarize c (Some d1) (Some d2) None
       = PList (map (fun g => dict_zip cols_summary (tuple_summary g)) gs)
    /\ fold_right Z.add 0 (map count gs) = Z.of_nat (List.length rs).
Proof.
  eexists. eexists. split; [reflexivity|]. split; [reflexivity|].
  set (m := filter (fun r : expense => Sql.between (Some (r_date r)) (Some d1) (Some d2))
              (rows c)).
  rewrite (sum_perm _ _
             (Permutation_map count (SqlFacts.order_by_perm total_desc _))).
  rewrite (Permutation_length (SqlFacts.order_by_perm date_desc_id_desc m)).
  rewrite map_map. cbn [count aggregate].
  apply (group_by_size String.eqb r_category m).
Qed.

Lemma group_by_one_key {T K : Type} (keq : K -> K -> bool) (key : T -> K)
    (k : K) (x : T) (l : list T) :
  keq k k = true -> key x = k -> (forall y, In y l -> key y = k) ->
  Sql.group_by keq key (x :: l) = [(k, x :: l)].
Proof.
  intros Hk Hx Hl. unfold Sql.group_by. simpl. rewrite Hx.
  assert (Hfold : forall g,
            fold_left (fun gs y => Sql.add_to_group keq (key y) y gs) l [(k, g)]
            = [(k, g ++ l)]).
  { induction l as [|y l IH]; intros g; simpl.
    - now rewrite app_nil_r.
    - rewrite (Hl y) by now left. rewrite Hk.
      rewrite IH by (intros z Hz; apply Hl; now right).
      now rewrite <- app_assoc. }
  apply (Hfold [x]).
Qed.

(** X12. With a non-empty category [C] as filter, [summarize] returns
    the empty list when no record of the range has category [C], and
    otherwise the single group of [C], whose total is the sum of the amounts
    of those records and whose count is their number. *)
Theorem summarize_one_category (c : store) (start_date end_date : option string)
    (C : string) :
  C <> "" ->
  summarize c start_date end_date (Some C)
  = match
      filter (fun r => Sql.between (Some (r_date r)) start_date end_date
                       && (r_category r =? C)%string) (rows c)
    with
    | [] => PList []
    | (_ :: _) as m =>
        PList [PDict [("category", PStr C);
                      ("total_amount", PFloat (fold_left aadd (map r_amount m) azero));
                      ("count", PInt (Z.of_nat (List.length m)))]]
    end.
Proof.
  intros HC. unfold summarize, select_summary. cbn [PyStr.truthy].
  apply String.eqb_neq in HC. rewrite HC. cbn [negb Sql.text_eq].
  set (cond := fun r : expense =>
                 Sql.between (Some (r_date r)) start_date end_date
                 && (r_category r =? C)%string).
  assert (Hcat : forall r, In r (filter cond (rows c)) -> r_category r = C).
  { intros r Hr. apply filter_In in Hr. destruct Hr as [_ Hr].
    apply andb_true_iff in Hr. now apply String.eqb_eq. }
  destruct (filter cond (rows c)) as [|x m]; [reflexivity|].
  rewrite (group_by_one_key String.eqb r_category C x m).
  - reflexivity.
  - apply String.eqb_refl.
  - apply Hcat. now left.
  - intros y Hy. apply Hcat. now right.
Qed.

(** *** Process start *)

Lemma filter_idem {T : Type} (f : T -> bool) (l : list T) :
  filter f (filter f l) = filter f l.
Proof.
  induction l as [|x l IH]; simpl; trivial.
  destruct (f x) eqn:E; simpl; [rewrite E; f_equal|]; exact IH.
Qed.

(** X13. Running [init_db] again changes no row: the rows after two
    runs are the rows after one; a table without a ['test'] record keeps
    all its rows; and every run raises the counter. *)
Theorem init_db_again (c : store) :
  rows (init_db (init_db c)) = rows (init_db c)
  /\ ((forall r, In r (rows c) -> r_category r <> "test") -> rows (init_db c) = rows c)
  /\ seq c < seq (init_db c).
Proof.
  split; [|split].
  - rewrite !init_db_rows. apply filter_idem.
  - intros Hno. rewrite init_db_rows. apply filter_all.
    intros r Hr. apply negb_true_iff, String.eqb_neq. now apply Hno.
  - unfold init_db. cbn. unfold next_rowid. lia.
Qed.

Lemma max_rowid_le (l : list expense) (n : Z) :
  0 <= n -> Forall (fun r => r_id r <= n) l -> max_rowid l <= n.
Proof.
  intros Hn. induction 1 as [|x l Hx Hl IH]; simpl; lia.
Qed.

Lemma run_seq_mono (ks : list call) (c : store) : seq c <= seq (snd (run c ks)).
Proof.
  revert c. induction ks as [|k ks IH]; intros c; cbn [run]; [cbn; lia|].
  pose proof (step_seq c k) as Hstep.
  destruct (step c k) as [v c1]. destruct Hstep as (_ & Hs & _).
  specialize (IH c1). destruct (run c1 ks) as [log c2]. cbn [snd] in *. lia.
Qed.

Lemma next_rowid_bounded (c : store) :
  0 <= seq c -> Forall (fun r => r_id r <= seq c) (rows c) -> next_rowid c = seq c + 1.
Proof.
  intros Hn Hb. pose proof (max_rowid_le _ _ Hn Hb). unfold next_rowid. lia.
Qed.

(** X14. In every history from the empty table on, [add] returns the
    counter plus one, and each start of the process uses one id up: the
    first [add] after a restart returns the former counter plus two. *)
Theorem restart_consumes_id (ks : list call) (date : string) (amount : A)
    (category : string) (subcategory note : option (option string)) :
  let c := snd (run empty ks) in
  fst (add_expense c (Some date) (Some amount) (Some category) subcategory note)
  = success "id" (PInt (seq c + 1))
  /\ fst (add_expense (init_db c) (Some date) (Some amount) (Some category)
            subcategory note)
     = success "id" (PInt (seq c + 2)).
Proof.
  intros c.
  assert (Hn : 0 <= seq c) by apply (run_seq_mono ks empty).
  assert (Hb : Forall (fun r => r_id r <= seq c) (rows c)).
  { apply (run_seq ks empty). constructor. }
  assert (Hnext : next_rowid c = seq c + 1) by now apply next_rowid_bounded.
  assert (Hseq : seq (init_db c) = seq c + 1).
  { rewrite <- Hnext. reflexivity. }
  assert (Hnext' : next_rowid (init_db c) = seq c + 2).
  { rewrite next_rowid_bounded; [lia | lia | now apply init_db_seq]. }
  split.
  - cbn. now rewrite Hnext.
  - unfold add_expense, insert_expense. cbn [not_null bind fst].
    now rewrite Hnext'.
Qed.

(** *** list after add and delete *)

Lemma perm_filter {T : Type} (f : T -> bool) (l l' : list T) :
  Permutation l l' -> Permutation (filter f l) (filter f l').
Proof.
  induction 1 as [|x l l' Hp IH|x y l|l l' l'' Hp IH Hp' IH']; simpl.
  - constructor.
  - destruct (f x); [now constructor | exact IH].
  - destruct (f x), (f y); try apply Permutation_refl. apply perm_swap.
  - eapply perm_trans; eassumption.
Qed.

Lemma filter_comm {T : Type} (f g : T -> bool) (l : list T) :
  filter f (filter g l) = filter g (filter f l).
Proof.
  induction l as [|x l IH]; simpl; trivial.
  destruct (f x) eqn:Ef, (g x) eqn:Eg; simpl; rewrite ?Ef, ?Eg, IH; trivial.
Qed.

(** X15. After a successful [add], [list] over a range returns the
    records it returned before, and the new record with them exactly when
    its date lies in the range. *)
Theorem list_after_add (c : store) (date : string) (amount : A) (category : string)
    (subcategory note : option (option string)) (d1 d2 : string) :
  exists (i : Z) (rs rs' : list expense),
    fst (add_expense c (Some date) (Some amount) (Some category) subcategory note)
    = success "id" (PInt i)
    /\ list_expenses c (Some d1) (Some d2)
       = PList (map (fun r => dict_zip cols_expense (tuple_expense r)) rs)
    /\ list_expenses
         (snd (add_expense c (Some date) (Some amount) (Some category) subcategory note))
         (Some d1) (Some d2)
       = PList (map (fun r => dict_zip cols_expense (tuple_expense r)) rs')
    /\ Permutation rs'
         (if (d1 <=? date)%string && (date <=? d2)%string
          then mk_expense i date amount category (param (Some "") subcategory)
                 (param (Some "") note) :: rs
          else rs).
Proof.
  eexists. eexists. eexists.
  split; [reflexivity|]. split; [reflexivity|]. split; [reflexivity|].
  cbn [add_expense insert_expense not_null bind snd rows].
  eapply perm_trans; [apply SqlFacts.order_by_perm|].
  rewrite filter_app. cbn [filter r_date].
  change (Sql.between (Some date) (Some d1) (Some d2))
    with ((d1 <=? date)%string && (date <=? d2)%string).
  pose proof (SqlFacts.order_by_perm date_desc_id_desc
                (filter (fun r : expense =>
                           (d1 <=? r_date r)%string && (r_date r <=? d2)%string)
                   (rows c))) as Hp.
  destruct ((d1 <=? date)%string && (date <=? d2)%string).
  - eapply perm_trans; [apply Permutation_sym, Permutation_cons_append|].
    apply perm_skip. exact (Permutation_sym Hp).
  - rewrite app_nil_r. exact (Permutation_sym Hp).
Qed.

(** X16. After [delete] of an id, [list] over a range returns the
    records it returned before except those with that id. *)
Theorem list_after_delete (c : store) (expense_id : Z) (d1 d2 : string) :
  exists rs rs' : list expense,
    list_expenses c (Some d1) (Some d2)
    = PList (map (fun r => dict_zip cols_expense (tuple_expense r)) rs)
    /\ list_expenses (snd (delete_expense c expense_id)) (Some d1) (Some d2)
       = PList (map (fun r => dict_zip cols_expense (tuple_expense r)) rs')
    /\ Permutation rs' (filter (fun r => negb (r_id r =? expense_id)) rs).
Proof.
  eexists. eexists. split; [reflexivity|]. split; [reflexivity|].
  destruct (delete_expense_seq c expense_id) as [_ ->].
  eapply perm_trans; [apply SqlFacts.order_by_perm|].
  rewrite filter_comm. apply perm_filter.
  apply Permutation_sym, SqlFacts.order_by_perm.
Qed.

(** *** summarize after add *)

(** X17. Adding a record of a non-empty category [C] dated within the
    range makes the summary of [C] over that range count one record more,
    and its total the former total plus the new amount. *)
Theorem summarize_after_add (c : store) (date : string) (amount : A) (C : string)
    (subcategory note : option (option string)) (d1 d2 : string) :
  C <> "" ->
  (d1 <=? date)%string && (date <=? d2)%string = true ->
  let m := filter (fun r => (d1 <=? r_date r)%string && (r_date r <=? d2)%string
                            && (r_category r =? C)%string) (rows c) in
  summarize (snd (add_expense c (Some date) (Some amount) (Some C) subcategory note))
    (Some d1) (Some d2) (Some C)
  = PList [PDict [("category", PStr C);
                  ("total_amount",
                    PFloat (aadd (fold_left aadd (map r_amount m) azero) amount));
                  ("count", PInt (Z.of_nat (List.length m) + 1))]].
Proof.
  intros HC Hrange m.
  unfold summarize, select_summary. cbn [PyStr.truthy].
  apply String.eqb_neq in HC. rewrite HC. cbn [negb Sql.text_eq].
  cbn [add_expense insert_expense not_null bind snd rows].
  set (new := mk_expense (next_rowid c) date amount C _ _).
  set (cond := fun r : expense =>
                 Sql.between (Some (r_date r)) (Some d1) (Some d2)
                 && (r_category r =? C)%string).
  assert (Hnew : cond new = true).
  { unfold cond, new. cbn [r_date r_category].
    rewrite String.eqb_refl, andb_true_r. exact Hrange. }
  assert (Hm : filter cond (rows c ++ [new]) = m ++ [new]).
  { rewrite filter_app. cbn [filter]. now rewrite Hnew. }
  assert (Hcat : forall r, In r (m ++ [new]) -> r_category r = C).
  { intros r Hr. rewrite <- Hm in Hr. apply filter_In in Hr. destruct Hr as [_ Hr].
    apply andb_true_iff in Hr. now apply String.eqb_eq. }
  rewrite Hm.
  assert (Hgroup : Sql.group_by String.eqb r_category (m ++ [new]) = [(C, m ++ [new])]).
  { destruct m as [|x m']; cbn [app] in *.
    - now apply group_by_one_key; [apply String.eqb_refl | apply Hcat; left | intros y []].
    - apply group_by_one_key.
      + apply String.eqb_refl.
      + apply Hcat. now left.
      + intros y Hy. apply Hcat. now right. }
  rewrite Hgroup. cbn [map Sql.order_by Sql.insert_sorted aggregate fst snd].
  unfold dict_zip, cols_summary, tuple_summary. cbn [combine s_category total_amount count].
  unfold aggregate. cbn [s_category total_amount count fst snd].
  unfold sql_sum. rewrite map_app, fold_left_app, length_app.
  cbn [map fold_left List.length r_amount new].
  rewrite Nat2Z.inj_add. reflexivity.
Qed.

End More.

End StoreFacts.

(** ** The further properties on the concrete ledger *)

Module StoreWitnesses.

Import Expenses Scenario StoreFacts.

(** Witness of X2: record 3 of the ledger. *)
Lemma get_returns_stored_witness :
  get_expense ledger 3
  = success "expense"
      (PDict [("id", PInt 3); ("date", PStr "2024-01-10"); ("amount", PFloat 550);
              ("category", PStr "Food"); ("subcategory", PStr ""); ("note", PStr "")]).
Proof.
  apply (get_returns_stored history
           (mk_expense 3 "2024-01-10" 550 "Food" (Some "") (Some ""))).
  vm_compute. auto.
Defined.

(** Witness of X6: record 3 of the ledger is deleted. *)
Lemma delete_stored_witness :
  exists c',
    delete_expense ledger 3 = (success "deleted_id" (PInt 3), c')
    /\ rows c' = filter (fun x => negb (r_id x =? 3)) (rows ledger)
    /\ (forall x, In x (rows c') <-> In x (rows ledger) /\ r_id x <> 3)
    /\ seq c' = seq ledger.
Proof.
  apply (delete_stored ledger (mk_expense 3 "2024-01-10" 550 "Food" (Some "") (Some ""))).
  vm_compute. auto.
Defined.

(** Witness of X7: record 2 of the ledger when record 3 is deleted. *)
Lemma other_records_untouched_witness :
  get_expense (snd (delete_expense ledger 3)) 2 = get_expense ledger 2.
Proof.
  apply (other_records_untouched ledger 3 2). discriminate.
Defined.

(** Witness of X8: the note of record 3 of the ledger is edited. *)
Lemma edit_then_get_witness :
  fst (edit_expense ledger 3 None None None None (Some "lunch"))
  = success "updated_id" (PInt 3)
  /\ get_expense (snd (edit_expense ledger 3 None None None None (Some "lunch"))) 3
     = success "expense"
         (PDict [("id", PInt 3); ("date", PStr "2024-01-10"); ("amount", PFloat 550);
                 ("category", PStr "Food"); ("subcategory", PStr "");
                 ("note", PStr "lunch")]).
Proof.
  apply (edit_then_get history
           (mk_expense 3 "2024-01-10" 550 "Food" (Some "") (Some ""))
           None None None None (Some "lunch")).
  - vm_compute. auto.
  - intros (_ & _ & _ & _ & Hnote). discriminate Hnote.
Defined.

(** Witness of X9: a range that ends before it starts. *)
Lemma inverted_range_is_empty_witness :
  list_expenses ledger (Some "2024-02-01") (Some "2024-01-01") = PList []
  /\ (forall category,
        summarize ledger (Some "2024-02-01") (Some "2024-01-01") category = PList []).
Proof.
  apply (inverted_range_is_empty ledger "2024-02-01" "2024-01-01"). reflexivity.
Defined.

(** Witness of X12: the summary of ["Food"] on the ledger. *)
Lemma summarize_one_category_witness :
  summarize ledger (Some "2024-01-01") (Some "2024-02-28") (Some "Food")
  = PList [PDict [("category", PStr "Food"); ("total_amount", PFloat 1550);
                  ("count", PInt 2)]].
Proof.
  rewrite (summarize_one_category ledger (Some "2024-01-01") (Some "2024-02-28") "Food")
    by discriminate.
  reflexivity.
Defined.

(** Witness of X17: a third ["Food"] record is added to the ledger. *)
Lemma summarize_after_add_witness :
  summarize
    (snd (add_expense ledger (Some "2024-01-20") (Some 250) (Some "Food") None None))
    (Some "2024-01-01") (Some "2024-02-28") (Some "Food")
  = PList [PDict [("category", PStr "Food"); ("total_amount", PFloat 1800);
                  ("count", PInt 3)]].
Proof.
  rewrite (summarize_after_add ledger "2024-01-20" 250 "Food" None None
             "2024-01-01" "2024-02-28");
    [reflexivity | discriminate | reflexivity].
Defined.

End StoreWitnesses.
